(** * ReceiverContract and ContractCaller: a shallow embedding

    The two Solidity contracts of the repository (pragma ^0.8.19) are
    embedded as pure functions over an explicit world state:

    - [ReceiverContract] (the spec's Ledger): [receiveFunds] (deposit),
      [transferTo] (internalTransfer), [transferWithValue], [getBalance],
      [getUserBalance], [receive] (implicit receive path), [withdraw];
    - [ContractCaller] (the spec's Relay): [callReceiverContract]
      (callReceiver), [triggerInternalTransfer], and its empty [receive].

    A [uint256] is an [N] together with the checked arithmetic of Solidity
    0.8 (a sum above [MAX_UINT256] reverts with an arithmetic panic).  A
    [mapping(address => uint256)] is a [gmap N N] read with default 0.  A
    call either returns the new world or reverts; a revert discards every
    change made by the call, so the caller goes on with the world it had.
    The code of accounts other than the two contracts is a parameter of
    the environment [Env]: it may refuse a call, accept it, or call back.
    Gas is not modelled, except for the 2300 gas stipend of
    [address.transfer]: it cannot pay for the storage writes of
    [ReceiverContract.receive], and the code of a third party that is run
    with it can only accept or refuse the payment. *)

From Stdlib Require Import NArith Lia List.
From stdpp Require Import gmap strings list fin_maps.
Import ListNotations.

Local Open Scope N_scope.

(** Closed side conditions over concrete worlds are settled by evaluation. *)
Ltac holds :=
  first [ vm_compute; reflexivity
        | apply N.leb_le; vm_compute; reflexivity
        | vm_compute; lia ].

(** ** Machine integers, addresses and errors *)

Abbreviation address := N (only parsing).
Abbreviation uint256 := N (only parsing).

Definition MAX_UINT256 : N := 2 ^ 256 - 1.

(** Why a call reverted: the reason string of a failed [require], the
    arithmetic panic of Solidity 0.8, or a failure that carries no reason
    (a value transfer that could not be made, [address.transfer] failing,
    a call to an account without the called function). *)
Inductive Error : Type :=
| Reason (msg : string)
| Panic_arithmetic
| NoReason.

Definition Must_send_some_ETH : Error := Reason "Must send some ETH".
Definition No_funds_sent : Error := Reason "No funds sent".
Definition Insufficient_balance : Error := Reason "Insufficient balance".
Definition Transfer_failed : Error := Reason "Transfer failed".
Definition Contract_has_insufficient_balance : Error :=
  Reason "Contract has insufficient balance".
Definition ETH_transfer_failed : Error := Reason "ETH transfer failed".
Definition Only_owner_can_withdraw : Error := Reason "Only owner can withdraw".

Inductive Result (A : Type) : Type :=
| Ok (a : A)
| Revert (e : Error).

Arguments Ok {A} a.
Arguments Revert {A} e.

Definition bind {A B : Type} (r : Result A) (k : A -> Result B) : Result B :=
  match r with
  | Ok a => k a
  | Revert e => Revert e
  end.

Notation "'let*' x ':=' e 'in' k" := (bind e (fun x => k))
  (at level 10, x name, e at level 100, k at level 200, only parsing).

Definition require (c : bool) (e : Error) : Result unit :=
  if c then Ok tt else Revert e.

Definition checked_add (x y : uint256) : Result uint256 :=
  if x + y <=? MAX_UINT256 then Ok (x + y) else Revert Panic_arithmetic.

Definition checked_sub (x y : uint256) : Result uint256 :=
  if y <=? x then Ok (x - y) else Revert Panic_arithmetic.

(** Reading a Solidity mapping: an absent key reads as 0. *)
Definition get (m : gmap N N) (a : address) : uint256 := default 0 (m !! a).

(** ** Events and storage *)

Inductive Event : Type :=
| FundsReceived (from : address) (amount : uint256)
| InternalTransferExecuted (from to : address) (amount : uint256)
| BalanceUpdated (account : address) (newBalance : uint256)
| ContractCallMade (from to : address) (value : uint256)
| InternalTransfer (from to : address) (amount : uint256).

Record ReceiverContract : Type := mkReceiver {
  owner : address;
  totalReceived : uint256;
  balances : gmap N N
}.

Record ContractCaller : Type := mkCaller {
  receiverContract : address;
  totalTransfers : uint256
}.

(** The world: the native balance of every account, the storage of the two
    contracts, and the events emitted so far, oldest first. *)
Record World : Type := mkWorld {
  wei : gmap N N;
  rc : ReceiverContract;
  cc : ContractCaller;
  events : list Event
}.

Definition set_wei (e : gmap N N) (w : World) : World :=
  mkWorld e (rc w) (cc w) (events w).

Definition set_balances (b : gmap N N) (w : World) : World :=
  mkWorld (wei w) (mkReceiver (owner (rc w)) (totalReceived (rc w)) b)
          (cc w) (events w).

Definition set_totalReceived (t : uint256) (w : World) : World :=
  mkWorld (wei w) (mkReceiver (owner (rc w)) t (balances (rc w)))
          (cc w) (events w).

Definition set_totalTransfers (n : uint256) (w : World) : World :=
  mkWorld (wei w) (rc w) (mkCaller (receiverContract (cc w)) n) (events w).

Definition emit (e : Event) (w : World) : World :=
  mkWorld (wei w) (rc w) (cc w) (events w ++ [e]).

(** [address(a).balance] *)
Definition balance_of (w : World) (a : address) : uint256 := get (wei w) a.

(** Moving [v] wei from [src] to [dst]; fails when [src] holds less. *)
Definition pay (src dst : address) (v : uint256) (w : World) : Result World :=
  if v <=? balance_of w src then
    let e1 := <[src := get (wei w) src - v]> (wei w) in
    let e2 := <[dst := get e1 dst + v]> e1 in
    Ok (set_wei e2 w)
  else Revert NoReason.

(** The constructors: [owner = msg.sender], and the address handed to
    [ContractCaller]. *)
Definition constructor_ReceiverContract (msg_sender : address) : ReceiverContract :=
  mkReceiver msg_sender 0 ∅.

Definition constructor_ContractCaller (_receiverAddress : address) : ContractCaller :=
  mkCaller _receiverAddress 0.

Definition deployed (wei0 : gmap N N) (deployer _receiverAddress : address) : World :=
  mkWorld wei0 (constructor_ReceiverContract deployer)
          (constructor_ContractCaller _receiverAddress) [].

(** What a message call carries besides value. *)
Inductive Calldata : Type :=
| Empty
| Sig_receiveFunds
| Sig_transferTo (recipient : address) (amount : uint256).

Definition to_option {A : Type} (r : Result A) : option A :=
  match r with
  | Ok a => Some a
  | Revert _ => None
  end.

(** The environment of the two contracts: the addresses at which they are
    deployed, and the code of every other account.
    [extern E callee sender value data w] is the outcome of a message call
    to [callee], a third party, in the world [w] that already holds the
    transferred value: [None] when the callee reverts, otherwise the world
    it leaves.  An account without code returns [Some w] for a plain call
    ([Empty]) and [None] for the call of a function, which Solidity makes
    only to targets that have code.
    [extern_stipend E callee sender value w] tells whether [callee], a
    third party, accepts a plain call that carries no more than the 2300
    gas stipend of [address.transfer], in the world [w] that already holds
    the transferred value.  That gas pays for no storage write and for no
    call that sends value, so a callee that accepts leaves [w] as it is,
    and a callee whose [receive] needs more runs out of gas and refuses.
    An account without code accepts. *)
Record Env : Type := mkEnv {
  receiver_addr : address;
  caller_addr : address;
  extern : address -> address -> uint256 -> Calldata -> World -> option World;
  extern_stipend : address -> address -> uint256 -> World -> bool
}.

Section Contracts.

Variable E : Env.

(** *** ReceiverContract *)

Definition getBalance (w : World) : uint256 := balance_of w (receiver_addr E).

Definition getUserBalance (w : World) (user : address) : uint256 :=
  get (balances (rc w)) user.

Definition receiveFunds (msg_sender : address) (msg_value : uint256) (w : World)
  : Result World :=
  let* w := pay msg_sender (receiver_addr E) msg_value w in
  let* _ := require (0 <? msg_value) No_funds_sent in
  let* b := checked_add (getUserBalance w msg_sender) msg_value in
  let w := set_balances (<[msg_sender := b]> (balances (rc w))) w in
  let* t := checked_add (totalReceived (rc w)) msg_value in
  let w := set_totalReceived t w in
  let w := emit (FundsReceived msg_sender msg_value) w in
  let w := emit (BalanceUpdated msg_sender (getUserBalance w msg_sender)) w in
  Ok w.

Definition receive (msg_sender : address) (msg_value : uint256) (w : World)
  : Result World :=
  let* w := pay msg_sender (receiver_addr E) msg_value w in
  let* b := checked_add (getUserBalance w msg_sender) msg_value in
  let w := set_balances (<[msg_sender := b]> (balances (rc w))) w in
  let* t := checked_add (totalReceived (rc w)) msg_value in
  let w := set_totalReceived t w in
  let w := emit (FundsReceived msg_sender msg_value) w in
  let w := emit (BalanceUpdated msg_sender (getUserBalance w msg_sender)) w in
  Ok w.

(** [callee.call{value: v}] with empty calldata, made by [sender]: the
    success flag is [Some], with the world the call leaves.  An empty
    calldata reaches the [receive] function of the callee. *)
Definition call_empty (sender callee : address) (v : uint256) (w : World)
  : option World :=
  if callee =? (receiver_addr E) then to_option (receive sender v w)
  else
    match pay sender callee v w with
    | Revert _ => None
    | Ok w' =>
        if callee =? (caller_addr E) then Some w'   (* ContractCaller.receive() {} *)
        else extern E callee sender v Empty w'
    end.

(** [payable(callee).transfer(v)]: a plain call that forwards only the
    2300 gas stipend and reverts when the callee fails.
    [ReceiverContract.receive] writes storage and so exceeds the stipend;
    the empty [receive] of the ContractCaller fits; a third party runs
    with the stipend only, whatever its code does with more gas. *)
Definition send_transfer (sender callee : address) (v : uint256) (w : World)
  : option World :=
  if callee =? (receiver_addr E) then None
  else
    match pay sender callee v w with
    | Revert _ => None
    | Ok w' =>
        if callee =? (caller_addr E) then Some w'   (* ContractCaller.receive() {} *)
        else if extern_stipend E callee sender v w' then Some w'
        else None
    end.

(** Lines 67-69 of [transferTo]: the balance check and the two writes. *)
Definition transferTo_bookkeeping (msg_sender recipient : address)
    (amount : uint256) (w : World) : Result World :=
  let* _ := require (amount <=? getUserBalance w msg_sender) Insufficient_balance in
  let* b := checked_sub (getUserBalance w msg_sender) amount in
  let w := set_balances (<[msg_sender := b]> (balances (rc w))) w in
  let* b := checked_add (getUserBalance w recipient) amount in
  let w := set_balances (<[recipient := b]> (balances (rc w))) w in
  Ok w.

(** Lines 74-76 of [transferTo]. *)
Definition transferTo_emit (msg_sender recipient : address)
    (amount : uint256) (w : World) : World :=
  let w := emit (InternalTransferExecuted msg_sender recipient amount) w in
  let w := emit (BalanceUpdated msg_sender (getUserBalance w msg_sender)) w in
  let w := emit (BalanceUpdated recipient (getUserBalance w recipient)) w in
  w.

Definition transferTo (msg_sender recipient : address) (amount : uint256)
    (w : World) : Result World :=
  let* w := transferTo_bookkeeping msg_sender recipient amount w in
  match call_empty (receiver_addr E) recipient 0 w with
  | None => Revert Transfer_failed
  | Some w => Ok (transferTo_emit msg_sender recipient amount w)
  end.

Definition transferWithValue (msg_sender : address) (msg_value : uint256)
    (recipient : address) (amount : uint256) (w : World) : Result World :=
  let* w := pay msg_sender (receiver_addr E) msg_value w in
  let* _ := require (amount <=? getBalance w) Contract_has_insufficient_balance in
  match call_empty (receiver_addr E) recipient amount w with
  | None => Revert ETH_transfer_failed
  | Some w => Ok (emit (InternalTransferExecuted (receiver_addr E) recipient amount) w)
  end.

Definition withdraw (msg_sender : address) (amount : uint256) (w : World)
  : Result World :=
  let* _ := require (msg_sender =? owner (rc w)) Only_owner_can_withdraw in
  match send_transfer (receiver_addr E) (owner (rc w)) amount w with
  | None => Revert NoReason
  | Some w => Ok w
  end.

(** *** ContractCaller *)

(** [IReceiver(target).receiveFunds{value: v}()] made by [sender]; a revert
    of the callee is passed on. *)
Definition call_receiveFunds (sender target : address) (v : uint256) (w : World)
  : Result World :=
  if target =? (receiver_addr E) then receiveFunds sender v w
  else if target =? (caller_addr E) then Revert NoReason
  else
    let* w := pay sender target v w in
    match extern E target sender v Sig_receiveFunds w with
    | None => Revert NoReason
    | Some w => Ok w
    end.

(** [IReceiver(target).transferTo(recipient, amount)] made by [sender]. *)
Definition call_transferTo (sender target recipient : address)
    (amount : uint256) (w : World) : Result World :=
  if target =? (receiver_addr E) then transferTo sender recipient amount w
  else if target =? (caller_addr E) then Revert NoReason
  else
    match extern E target sender 0 (Sig_transferTo recipient amount) w with
    | None => Revert NoReason
    | Some w => Ok w
    end.

Definition callReceiverContract (msg_sender : address) (msg_value : uint256)
    (w : World) : Result World :=
  let* w := pay msg_sender (caller_addr E) msg_value w in
  let* _ := require (0 <? msg_value) Must_send_some_ETH in
  let* w := call_receiveFunds (caller_addr E) (receiverContract (cc w)) msg_value w in
  let* n := checked_add (totalTransfers (cc w)) 1 in
  let w := set_totalTransfers n w in
  Ok (emit (ContractCallMade msg_sender (receiverContract (cc w)) msg_value) w).

Definition triggerInternalTransfer (msg_sender recipient : address)
    (amount : uint256) (w : World) : Result World :=
  let* w := call_transferTo (caller_addr E) (receiverContract (cc w)) recipient amount w in
  Ok (emit (InternalTransfer (receiverContract (cc w)) recipient amount) w).

(** [ContractCaller.receive]: the value arrives, nothing else happens. *)
Definition ContractCaller_receive (msg_sender : address) (msg_value : uint256)
    (w : World) : Result World :=
  pay msg_sender (caller_addr E) msg_value w.

(** *** Transactions *)

(** The operations an outside account can submit. *)
Inductive Tx : Type :=
| Tx_receiveFunds (sender : address) (value : uint256)
| Tx_receive (sender : address) (value : uint256)
| Tx_transferTo (sender recipient : address) (amount : uint256)
| Tx_transferWithValue (sender : address) (value : uint256)
    (recipient : address) (amount : uint256)
| Tx_withdraw (sender : address) (amount : uint256)
| Tx_callReceiverContract (sender : address) (value : uint256)
| Tx_triggerInternalTransfer (sender recipient : address) (amount : uint256)
| Tx_ContractCaller_receive (sender : address) (value : uint256).

Definition exec (tx : Tx) (w : World) : Result World :=
  match tx with
  | Tx_receiveFunds s v => receiveFunds s v w
  | Tx_receive s v => receive s v w
  | Tx_transferTo s r a => transferTo s r a w
  | Tx_transferWithValue s v r a => transferWithValue s v r a w
  | Tx_withdraw s a => withdraw s a w
  | Tx_callReceiverContract s v => callReceiverContract s v w
  | Tx_triggerInternalTransfer s r a => triggerInternalTransfer s r a w
  | Tx_ContractCaller_receive s v => ContractCaller_receive s v w
  end.

(** A transaction that reverts leaves the world as it was. *)
Definition step (w : World) (tx : Tx) : World :=
  match exec tx w with
  | Ok w' => w'
  | Revert _ => w
  end.

Definition run (txs : list Tx) (w : World) : World := fold_left step txs w.

(** *** Predicates used in the statements *)

(** The sum of all recorded balances. *)
Definition sum_balances (m : gmap N N) : N :=
  map_fold (fun _ v acc => v + acc) 0 m.

(** A deposit submitted by an account other than the ReceiverContract
    itself: the explicit entry point or the implicit receive path. *)
Definition is_deposit (tx : Tx) : bool :=
  match tx with
  | Tx_receiveFunds s _ => negb (s =? (receiver_addr E))
  | Tx_receive s _ => negb (s =? (receiver_addr E))
  | _ => false
  end.

(** The ledger is covered: the recorded balances sum to no more than the
    value the ReceiverContract holds. *)
Definition covered (w : World) : Prop :=
  sum_balances (balances (rc w)) <= getBalance w.

(** What a successful deposit of [v] by [s] does, on either path. *)
Definition credited (s : address) (v : uint256) (w w' : World) : Prop :=
  balances (rc w') = <[s := getUserBalance w s + v]> (balances (rc w)) /\
  totalReceived (rc w') = totalReceived (rc w) + v /\
  owner (rc w') = owner (rc w) /\
  cc w' = cc w /\
  events w' =
    events w ++ [FundsReceived s v; BalanceUpdated s (getUserBalance w s + v)] /\
  getBalance w' =
    (if decide (s = (receiver_addr E)) then getBalance w else getBalance w + v).

(** The events a call added: those of [w'] after the ones of [w]. *)
Definition emitted (w w' : World) : list Event :=
  drop (length (events w)) (events w').

Definition is_BalanceUpdated (e : Event) : bool :=
  match e with BalanceUpdated _ _ => true | _ => false end.

Definition is_InternalTransferExecuted (e : Event) : bool :=
  match e with InternalTransferExecuted _ _ _ => true | _ => false end.

Definition count_events (p : Event -> bool) (l : list Event) : nat :=
  length (filter (fun e => p e = true) l).

(** The code of [b] accepts or refuses a plain call and does nothing
    else: it does not call back into either contract. *)
Definition no_callback (b : address) : Prop :=
  forall sender v w w', extern E b sender v Empty w = Some w' -> w' = w.

(** No third party writes the storage slot [owner] of the ReceiverContract
    (it has no access to it: no function of the contract assigns it). *)
Definition extern_keeps_owner : Prop :=
  forall callee sender v data w w',
    extern E callee sender v data w = Some w' -> owner (rc w') = owner (rc w).

(** The reading of [transferTo] in which the zero-value call to the
    recipient is made before the balances are written: were it so, a
    recipient that refuses the call in the world [w] the transfer starts
    from would make the transfer fail. *)
Definition probe_before_bookkeeping (a b : address) (amt : uint256) (w : World) : Prop :=
  amt <= getUserBalance w a ->
  call_empty (receiver_addr E) b 0 w = None ->
  transferTo a b amt w = Revert Transfer_failed.

End Contracts.

(** ** Sample accounts and worlds

    Used to run the contracts on concrete inputs: the ReceiverContract at
    address 100, the ContractCaller at 200, the deployer 9, and outside
    accounts 1, 2 and 3. *)

(** Account 1 has deposited 100; the ReceiverContract holds exactly that. *)
Definition sample_world : World :=
  mkWorld (<[1 := 1000]> (<[2 := 500]> (<[100 := 100]> ∅)))
          (mkReceiver 9 100 (<[1 := 100]> ∅))
          (mkCaller 100 0)
          [].

(** Every third party is an account without code: a plain call to it
    succeeds and nothing runs; there is no function to call. *)
Definition no_code : address -> address -> uint256 -> Calldata -> World -> option World :=
  fun _ _ _ data w =>
    match data with
    | Empty => Some w
    | _ => None
    end.

(** An account without code accepts a payment whatever gas comes with it. *)
Definition no_code_stipend : address -> address -> uint256 -> World -> bool :=
  fun _ _ _ _ => true.

Definition sample_env : Env := mkEnv 100 200 no_code no_code_stipend.

(** Every third party is a contract whose [receive] reads its own recorded
    balance with [getUserBalance] and reverts unless it is positive. *)
Definition needs_credit : address -> address -> uint256 -> Calldata -> World -> option World :=
  fun callee _ _ _ w => if 0 <? getUserBalance w callee then Some w else None.

(** The read of [getUserBalance] is a call to the ReceiverContract and a
    cold storage read there, more than the stipend pays for. *)
Definition needs_credit_stipend : address -> address -> uint256 -> World -> bool :=
  fun _ _ _ _ => false.

Definition gated_env : Env := mkEnv 100 200 needs_credit needs_credit_stipend.

(** Account 2 is a contract that calls back when it receives a plain
    call: its [receive] hands its whole recorded balance on to account 3
    with [transferTo].  Every other third party has no code. *)
Definition passes_on : address -> address -> uint256 -> Calldata -> World -> option World :=
  fun callee _ _ _ w =>
    if callee =? 2
    then to_option (transferTo sample_env 2 3 (getUserBalance w 2) w)
    else Some w.

(** The call back of account 2 writes storage: with the stipend alone its
    [receive] runs out of gas.  The accounts without code accept. *)
Definition calls_back_stipend : address -> address -> uint256 -> World -> bool :=
  fun callee _ _ _ => negb (callee =? 2).

Definition passing_env : Env := mkEnv 100 200 passes_on calls_back_stipend.

(** Account 2 is a contract that calls back when it receives a plain
    call: its [receive] deposits the value it was sent with
    [receiveFunds].  Every other third party has no code. *)
Definition redeposits : address -> address -> uint256 -> Calldata -> World -> option World :=
  fun callee _ v _ w =>
    if callee =? 2
    then to_option (receiveFunds sample_env 2 v w)
    else Some w.

Definition redepositing_env : Env := mkEnv 100 200 redeposits calls_back_stipend.

(** ** The remaining functions and further notions

    [getReceiverBalance] of the ContractCaller, the notions the further
    properties are stated with, and the handling of compiler diagnostics
    in the deployment script. *)

(** [ContractCaller.getReceiverBalance]: the pass-through read
    [IReceiver(receiverContract).getBalance()].  What a third-party target
    answers is the parameter [view]. *)
Definition getReceiverBalance (E : Env) (view : address -> World -> Result uint256)
    (w : World) : Result uint256 :=
  if receiverContract (cc w) =? receiver_addr E then Ok (getBalance E w)
  else if receiverContract (cc w) =? caller_addr E then Revert NoReason
  else view (receiverContract (cc w)) w.

(** The account that submits a transaction ([msg.sender] of the outer
    call). *)
Definition tx_sender (tx : Tx) : address :=
  match tx with
  | Tx_receiveFunds s _ => s
  | Tx_receive s _ => s
  | Tx_transferTo s _ _ => s
  | Tx_transferWithValue s _ _ _ => s
  | Tx_withdraw s _ => s
  | Tx_callReceiverContract s _ => s
  | Tx_triggerInternalTransfer s _ _ => s
  | Tx_ContractCaller_receive s _ => s
  end.

(** The two functions of the ReceiverContract that send value out. *)
Definition sends_value_out (tx : Tx) : bool :=
  match tx with
  | Tx_transferWithValue _ _ _ _ => true
  | Tx_withdraw _ _ => true
  | _ => false
  end.

Definition is_callReceiverContract (tx : Tx) : bool :=
  match tx with
  | Tx_callReceiverContract _ _ => true
  | _ => false
  end.

Definition is_triggerInternalTransfer (tx : Tx) : bool :=
  match tx with
  | Tx_triggerInternalTransfer _ _ _ => true
  | _ => false
  end.

(** No third party calls back or changes anything we track: its code
    accepts a call or refuses it. *)
Definition passive (E : Env) : Prop :=
  forall callee sender v data w w',
    extern E callee sender v data w = Some w' -> w' = w.

(** The code of [b] accepts every plain call and does nothing else (an
    account without code, a contract with an empty payable [receive]). *)
Definition accepts (E : Env) (b : address) : Prop :=
  forall sender v w, extern E b sender v Empty w = Some w.

(** The code of [b] accepts every payment made with [address.transfer]:
    its [receive], if it has one, needs no more than the 2300 gas stipend
    (an account without code, a contract with an empty payable [receive]). *)
Definition accepts_stipend (E : Env) (b : address) : Prop :=
  forall sender v w, extern_stipend E b sender v w = true.

(** The [receive] of [b] needs more than the stipend, or always reverts. *)
Definition refuses_stipend (E : Env) (b : address) : Prop :=
  forall sender v w, extern_stipend E b sender v w = false.

(** The ContractCaller (200) has forwarded one deposit of 50. *)
Definition relay_world : World :=
  mkWorld (<[1 := 1000]> (<[100 := 50]> ∅))
          (mkReceiver 9 50 (<[200 := 50]> ∅))
          (mkCaller 100 1)
          [].

(** As [sample_world], with account 2 as the owner of the ReceiverContract. *)
Definition owner2_world : World :=
  mkWorld (wei sample_world)
          (mkReceiver 2 100 (<[1 := 100]> ∅))
          (mkCaller 100 0)
          [].

(** A world in which [totalReceived] is one below the largest [uint256]. *)
Definition brimful_world : World :=
  mkWorld (<[1 := 1000]> ∅)
          (mkReceiver 9 (MAX_UINT256 - 1) (<[2 := MAX_UINT256 - 1]> ∅))
          (mkCaller 100 0)
          [].

(** *** deploy_contracts.js: compiler diagnostics

    An entry of [output.errors] of the Solidity compiler, and the block
    "4. Handle compiler errors/warnings": every entry is written to
    [console.error]; the script throws after the loop when one of them
    had severity [error]. *)
Record Diagnostic : Type := mkDiagnostic {
  formattedMessage : string;
  severity : string
}.

(** The body of the [forEach] callback, on the pair of the lines written
    so far and the flag [hasError]. *)
Definition report_diagnostic (st : list string * bool) (err : Diagnostic)
  : list string * bool :=
  (fst st ++ [formattedMessage err],
   if String.eqb (severity err) "error" then true else snd st).

(** [errors] is [None] when [output.errors] is undefined.  The result is
    the lines written to [console.error] and the message of the [Error]
    thrown, if any. *)
Definition handle_compiler_errors (errors : option (list Diagnostic))
  : list string * option string :=
  match errors with
  | None => ([], None)
  | Some errs =>
      if (0 <? length errs)%nat then
        let st := fold_left report_diagnostic errs ([], false) in
        (fst st,
         if snd st then Some "Compilation failed due to errors above."%string else None)
      else ([], None)
  end.

(** *** Transactions as ledger steps

    With passive third parties a successful transaction amounts to a short
    script of three kinds of steps: a payment of value between accounts, a
    deposit credited on the ledger, a move of recorded balance; the
    ContractCaller adds the bump of its counter.  Events are only ever
    appended. *)
Inductive Act : Type :=
| A_pay (src dst : address) (v : uint256)
| A_deposit (s : address) (v : uint256)
| A_move (a b : address) (amt : uint256)
| A_bump.

(** What every step keeps: the owner, the target of the ContractCaller and
    the events emitted so far. *)
Definition keeps (w w' : World) : Prop :=
  owner (rc w') = owner (rc w) /\
  receiverContract (cc w') = receiverContract (cc w) /\
  exists l, events w' = events w ++ l.

Definition does (a : Act) (w w' : World) : Prop :=
  keeps w w' /\
  match a with
  | A_pay src dst v =>
      v <= balance_of w src /\
      (forall x, balance_of w' x + (if decide (x = src) then v else 0)
                 = balance_of w x + (if decide (x = dst) then v else 0)) /\
      (forall x, getUserBalance w' x = getUserBalance w x) /\
      sum_balances (balances (rc w')) = sum_balances (balances (rc w)) /\
      totalReceived (rc w') = totalReceived (rc w) /\
      totalTransfers (cc w') = totalTransfers (cc w)
  | A_deposit s v =>
      (forall x, balance_of w' x = balance_of w x) /\
      (forall x, getUserBalance w' x
                 = getUserBalance w x + (if decide (x = s) then v else 0)) /\
      sum_balances (balances (rc w')) = sum_balances (balances (rc w)) + v /\
      totalReceived (rc w') = totalReceived (rc w) + v /\
      totalReceived (rc w') <= MAX_UINT256 /\
      totalTransfers (cc w') = totalTransfers (cc w)
  | A_move a b amt =>
      amt <= getUserBalance w a /\
      (forall x, balance_of w' x = balance_of w x) /\
      (forall x, getUserBalance w' x + (if decide (x = a) then amt else 0)
                 = getUserBalance w x + (if decide (x = b) then amt else 0)) /\
      sum_balances (balances (rc w')) = sum_balances (balances (rc w)) /\
      totalReceived (rc w') = totalReceived (rc w) /\
      totalTransfers (cc w') = totalTransfers (cc w)
  | A_bump =>
      (forall x, balance_of w' x = balance_of w x) /\
      (forall x, getUserBalance w' x = getUserBalance w x) /\
      sum_balances (balances (rc w')) = sum_balances (balances (rc w)) /\
      totalReceived (rc w') = totalReceived (rc w) /\
      totalTransfers (cc w') = totalTransfers (cc w) + 1
  end.

(** The two worlds differ at most by events appended. *)
Definition same (w w' : World) : Prop :=
  keeps w w' /\
  (forall x, balance_of w' x = balance_of w x) /\
  (forall x, getUserBalance w' x = getUserBalance w x) /\
  sum_balances (balances (rc w')) = sum_balances (balances (rc w)) /\
  totalReceived (rc w') = totalReceived (rc w) /\
  totalTransfers (cc w') = totalTransfers (cc w).

Fixpoint path (acts : list Act) (w w' : World) : Prop :=
  match acts with
  | [] => same w w'
  | a :: acts => exists w1, does a w w1 /\ path acts w1 w'
  end.

(** The plain call the ReceiverContract makes to [b] with value [v]: the
    value moves; when [b] is the contract itself its [receive] credits
    it. *)
Definition probe_acts (E : Env) (b : address) (v : uint256) : list Act :=
  if decide (b = receiver_addr E)
  then [A_pay (receiver_addr E) (receiver_addr E) v; A_deposit (receiver_addr E) v]
  else [A_pay (receiver_addr E) b v].

Definition script (E : Env) (tx : Tx) (w : World) : list Act :=
  match tx with
  | Tx_receiveFunds s v => [A_pay s (receiver_addr E) v; A_deposit s v]
  | Tx_receive s v => [A_pay s (receiver_addr E) v; A_deposit s v]
  | Tx_transferTo a b amt => A_move a b amt :: probe_acts E b 0
  | Tx_transferWithValue s v b amt =>
      A_pay s (receiver_addr E) v :: probe_acts E b amt
  | Tx_withdraw s amt => [A_pay (receiver_addr E) (owner (rc w)) amt]
  | Tx_callReceiverContract s v =>
      A_pay s (caller_addr E) v ::
      (if decide (receiverContract (cc w) = receiver_addr E)
       then [A_pay (caller_addr E) (receiver_addr E) v;
             A_deposit (caller_addr E) v; A_bump]
       else [A_pay (caller_addr E) (receiverContract (cc w)) v; A_bump])
  | Tx_triggerInternalTransfer s r amt =>
      if decide (receiverContract (cc w) = receiver_addr E)
      then A_move (caller_addr E) r amt :: probe_acts E r 0
      else []
  | Tx_ContractCaller_receive s v => [A_pay s (caller_addr E) v]
  end.

(** What a script adds up to: value into and out of an account, recorded
    balance credited to and debited from an account, the deposits, the
    bumps. *)
Definition wei_in (x : address) (a : Act) : N :=
  match a with
  | A_pay _ dst v => if decide (x = dst) then v else 0
  | _ => 0
  end.

Definition wei_out (x : address) (a : Act) : N :=
  match a with
  | A_pay src _ v => if decide (x = src) then v else 0
  | _ => 0
  end.

Definition credit_of (x : address) (a : Act) : N :=
  match a with
  | A_deposit s v => if decide (x = s) then v else 0
  | A_move _ b amt => if decide (x = b) then amt else 0
  | _ => 0
  end.

Definition debit_of (x : address) (a : Act) : N :=
  match a with
  | A_move a' _ amt => if decide (x = a') then amt else 0
  | _ => 0
  end.

Definition deposit_of (a : Act) : N :=
  match a with
  | A_deposit _ v => v
  | _ => 0
  end.

Definition bump_of (a : Act) : N :=
  match a with
  | A_bump => 1
  | _ => 0
  end.

Definition tally (f : Act -> N) (acts : list Act) : N :=
  foldr (fun a n => f a + n) 0 acts.

(** The worlds that transactions lead to from a fresh deployment. *)
Definition reachable (E : Env) (w : World) : Prop :=
  exists wei0 deployer target txs, w = run E txs (deployed wei0 deployer target).

(** * Properties *)

Section Properties.

Variable E : Env.

(** ** Mappings *)

Lemma get_insert_eq (m : gmap N N) a x : get (<[a := x]> m) a = x.
Proof. unfold get. by rewrite lookup_insert_eq. Qed.

Lemma get_insert_ne (m : gmap N N) a b x : a ≠ b -> get (<[a := x]> m) b = get m b.
Proof. intros Hne. unfold get. by rewrite lookup_insert_ne. Qed.

Lemma sum_balances_empty : sum_balances ∅ = 0.
Proof. unfold sum_balances. apply map_fold_empty. Qed.

Lemma sum_balances_insert (m : gmap N N) a x :
  sum_balances (<[a := x]> m) + get m a = sum_balances m + x.
Proof.
  unfold sum_balances, get.
  destruct (m !! a) as [y|] eqn:Ha; simpl.
  - rewrite <- (insert_delete_eq m a x).
    rewrite map_fold_insert_L; [| intros; lia | apply lookup_delete_eq].
    rewrite (map_fold_delete_L _ _ a y m); [lia | intros; lia | done].
  - rewrite map_fold_insert_L; [lia | intros; lia | done].
Qed.

(** ** Value transfers *)

Lemma pay_ok src dst v w :
  v <= balance_of w src ->
  pay src dst v w =
  Ok (set_wei (<[dst := get (<[src := get (wei w) src - v]> (wei w)) dst + v]>
                 (<[src := get (wei w) src - v]> (wei w))) w).
Proof.
  intros Hv. unfold pay. apply N.leb_le in Hv. by rewrite Hv.
Qed.

Lemma pay_short src dst v w :
  balance_of w src < v -> pay src dst v w = Revert NoReason.
Proof.
  intros Hv. unfold pay. apply N.leb_gt in Hv. by rewrite Hv.
Qed.

Lemma pay_inv src dst v w w' :
  pay src dst v w = Ok w' ->
  v <= balance_of w src /\
  rc w' = rc w /\ cc w' = cc w /\ events w' = events w /\
  balance_of w' dst = (if decide (src = dst) then balance_of w dst
                       else balance_of w dst + v) /\
  (forall a, a ≠ dst -> a ≠ src -> balance_of w' a = balance_of w a).
Proof.
  unfold pay. destruct (N.leb_spec v (balance_of w src)) as [Hv|Hv]; [|done].
  intros [= <-]. unfold balance_of in *; simpl.
  repeat split; [done|..].
  - rewrite get_insert_eq. case_decide as Hd.
    + subst. rewrite get_insert_eq. lia.
    + by rewrite get_insert_ne.
  - intros a Hd Hs. by rewrite !get_insert_ne.
Qed.

Lemma pay_zero src dst w w' :
  pay src dst 0 w = Ok w' -> forall a, balance_of w' a = balance_of w a.
Proof.
  unfold pay. destruct (N.leb_spec 0 (balance_of w src)) as [Hv|Hv]; [|lia].
  intros [= <-] a. unfold balance_of; simpl.
  destruct (decide (a = dst)) as [->|Hd].
  - rewrite get_insert_eq. destruct (decide (src = dst)) as [->|Hs].
    + rewrite get_insert_eq. lia.
    + rewrite get_insert_ne by done. lia.
  - rewrite get_insert_ne by done.
    destruct (decide (a = src)) as [->|Hs].
    + rewrite get_insert_eq. lia.
    + by rewrite get_insert_ne.
Qed.

Lemma checked_add_ok x y : x + y <= MAX_UINT256 -> checked_add x y = Ok (x + y).
Proof. intros H. unfold checked_add. apply N.leb_le in H. by rewrite H. Qed.

Lemma checked_add_inv x y z : checked_add x y = Ok z -> z = x + y /\ z <= MAX_UINT256.
Proof.
  unfold checked_add. destruct (N.leb_spec (x + y) MAX_UINT256); [|done].
  by intros [= <-].
Qed.

Lemma checked_sub_ok x y : y <= x -> checked_sub x y = Ok (x - y).
Proof. intros H. unfold checked_sub. apply N.leb_le in H. by rewrite H. Qed.

(** ** Deposits *)

Lemma receive_inv s v w w' :
  receive E s v w = Ok w' ->
  v <= balance_of w s /\ getUserBalance w s + v <= MAX_UINT256 /\
  totalReceived (rc w) + v <= MAX_UINT256 /\ credited E s v w w'.
Proof.
  unfold receive.
  destruct (pay s (receiver_addr E) v w) as [w1|] eqn:Hpay; [|done].
  apply pay_inv in Hpay as (Hv & Hrc & Hcc & Hev & Hdst & _). simpl.
  unfold getUserBalance. rewrite Hrc.
  destruct (checked_add (get (balances (rc w)) s) v) as [b|] eqn:Hb; [|done].
  apply checked_add_inv in Hb as [-> Hb]. simpl.
  destruct (checked_add (totalReceived (rc w)) v) as [t|] eqn:Ht; [|done].
  apply checked_add_inv in Ht as [-> Ht]. simpl.
  intros [= <-]. unfold credited, getUserBalance, getBalance; simpl.
  rewrite get_insert_eq, Hrc, Hcc, Hev, <- app_assoc. by split_and!.
Qed.

Lemma receive_ok s v w :
  v <= balance_of w s ->
  getUserBalance w s + v <= MAX_UINT256 ->
  totalReceived (rc w) + v <= MAX_UINT256 ->
  exists w', receive E s v w = Ok w' /\ credited E s v w w'.
Proof.
  intros Hv Hb Ht.
  assert (exists w', receive E s v w = Ok w') as [w' Hw'].
  { unfold receive. rewrite (pay_ok _ _ _ _ Hv). simpl.
    unfold getUserBalance in *. simpl.
    rewrite (checked_add_ok _ _ Hb). simpl.
    rewrite (checked_add_ok _ _ Ht). simpl. eauto. }
  exists w'. split; [done|]. apply receive_inv in Hw'. tauto.
Qed.

(** With a positive value the two deposit paths run the same statements. *)
Lemma receiveFunds_receive s v w :
  0 < v -> receiveFunds E s v w = receive E s v w.
Proof.
  intros Hv. unfold receiveFunds, receive.
  destruct (pay s (receiver_addr E) v w) as [w1|]; [|done]. simpl.
  apply N.ltb_lt in Hv. by rewrite Hv.
Qed.

Lemma receiveFunds_zero s w : receiveFunds E s 0 w = Revert No_funds_sent.
Proof.
  unfold receiveFunds. rewrite pay_ok by lia. done.
Qed.

(** Outside the range of [uint256] the checked additions make the
    deposit revert with the arithmetic panic. *)
Lemma receiveFunds_overflow s v w :
  0 < v ->
  v <= balance_of w s ->
  MAX_UINT256 < getUserBalance w s + v \/ MAX_UINT256 < totalReceived (rc w) + v ->
  receiveFunds E s v w = Revert Panic_arithmetic.
Proof.
  intros Hpos Hv Hover. unfold receiveFunds. rewrite (pay_ok _ _ _ _ Hv). simpl.
  apply N.ltb_lt in Hpos. rewrite Hpos. simpl.
  unfold getUserBalance in *. simpl. unfold checked_add at 1.
  destruct (N.leb_spec (get (balances (rc w)) s + v) MAX_UINT256) as [Hb|Hb]; [|done].
  simpl. unfold checked_add.
  destruct (N.leb_spec (totalReceived (rc w) + v) MAX_UINT256) as [Ht|Ht]; [|done].
  lia.
Qed.

Lemma receiveFunds_inv s v w w' :
  receiveFunds E s v w = Ok w' ->
  0 < v /\ v <= balance_of w s /\ credited E s v w w'.
Proof.
  intros H. destruct (N.eq_dec v 0) as [->|Hv].
  - by rewrite receiveFunds_zero in H.
  - assert (0 < v) as Hpos by lia. rewrite receiveFunds_receive in H by done.
    apply receive_inv in H. tauto.
Qed.

Lemma credited_covered s v w w' :
  s ≠ (receiver_addr E) -> credited E s v w w' -> covered E w -> covered E w'.
Proof.
  intros Hs (Hbal & _ & _ & _ & _ & Hpool) Hc. unfold covered in *.
  rewrite decide_False in Hpool by done. rewrite Hbal, Hpool.
  pose proof (sum_balances_insert (balances (rc w)) s (getUserBalance w s + v)) as Hsum.
  unfold getUserBalance in *. lia.
Qed.

Lemma step_deposit_covered w tx :
  is_deposit E tx = true -> covered E w -> covered E (step E w tx).
Proof.
  intros Hd Hc. unfold step.
  destruct tx as [s v|s v| | | | | |]; simpl in Hd; try done;
    apply negb_true_iff, N.eqb_neq in Hd; simpl.
  - destruct (receiveFunds E s v w) as [w'|] eqn:H; [|done].
    apply receiveFunds_inv in H as (_ & _ & H). by eapply credited_covered.
  - destruct (receive E s v w) as [w'|] eqn:H; [|done].
    apply receive_inv in H as (_ & _ & _ & H). by eapply credited_covered.
Qed.

Lemma run_deposits_covered txs w :
  forallb (is_deposit E) txs = true -> covered E w -> covered E (run E txs w).
Proof.
  revert w. induction txs as [|tx txs IH]; intros w Hall Hc; [done|].
  simpl in Hall. apply andb_true_iff in Hall as [Hd Hall].
  unfold run. simpl. apply IH; [done|]. by apply step_deposit_covered.
Qed.

Lemma deployed_covered wei0 deployer target : covered E (deployed wei0 deployer target).
Proof. unfold covered. simpl. rewrite sum_balances_empty. lia. Qed.

Lemma forallb_take {A} (f : A -> bool) (l : list A) k :
  forallb f l = true -> forallb f (take k l) = true.
Proof.
  revert k. induction l as [|x l IH]; intros [|k] H; simpl in *; try done.
  apply andb_true_iff in H as [Hx Hl]. rewrite Hx. simpl. by apply IH.
Qed.

(** C1.  Starting from the freshly deployed contracts, after every prefix
    of every sequence of deposits (through [receiveFunds] or through the
    implicit [receive] path, submitted by accounts other than the
    ReceiverContract itself) the recorded balances sum to at most the
    value the ReceiverContract holds. *)
Theorem C1_deposits_keep_ledger_covered
    (wei0 : gmap N N) (deployer target : address) (txs : list Tx) (k : nat) :
  forallb (is_deposit E) txs = true ->
  sum_balances (balances (rc (run E (take k txs) (deployed wei0 deployer target))))
  <= getBalance E (run E (take k txs) (deployed wei0 deployer target)).
Proof.
  intros Hall. apply run_deposits_covered.
  - by apply forallb_take.
  - apply deployed_covered.
Qed.

(** C2.  [receiveFunds] with no value reverts with "No funds sent" and
    leaves the world as it was.  With a value [n > 0] that the sender
    holds, and while the credited counters stay within [uint256], it adds
    exactly [n] to the sender's recorded balance, to [totalReceived] and to
    the value held by the contract, and appends [FundsReceived(sender, n)]
    followed by [BalanceUpdated(sender, new balance)]. *)
Theorem C2_receiveFunds_credits_exactly (s : address) (n : uint256) (w : World) :
  (receiveFunds E s 0 w = Revert No_funds_sent /\ step E w (Tx_receiveFunds s 0) = w) /\
  (0 < n ->
   s ≠ (receiver_addr E) ->
   n <= balance_of w s ->
   getUserBalance w s + n <= MAX_UINT256 ->
   totalReceived (rc w) + n <= MAX_UINT256 ->
   exists w',
     receiveFunds E s n w = Ok w' /\
     step E w (Tx_receiveFunds s n) = w' /\
     getUserBalance w' s = getUserBalance w s + n /\
     (forall a, a ≠ s -> getUserBalance w' a = getUserBalance w a) /\
     totalReceived (rc w') = totalReceived (rc w) + n /\
     getBalance E w' = getBalance E w + n /\
     events w' =
       events w ++ [FundsReceived s n; BalanceUpdated s (getUserBalance w' s)]).
Proof.
  split.
  - unfold step. simpl. by rewrite receiveFunds_zero.
  - intros Hn Hs Hv Hb Ht.
    destruct (receive_ok s n w Hv Hb Ht) as (w' & Hw' & Hcr).
    rewrite <- receiveFunds_receive in Hw' by done.
    exists w'. unfold step. simpl. rewrite Hw'.
    destruct Hcr as (Hbal & Htot & _ & _ & Hev & Hpool).
    rewrite decide_False in Hpool by done.
    assert (getUserBalance w' s = getUserBalance w s + n) as Hnew.
    { unfold getUserBalance. rewrite Hbal. apply get_insert_eq. }
    split_and!; try done.
    + intros a Ha. unfold getUserBalance. rewrite Hbal. by apply get_insert_ne.
    + by rewrite Hnew.
Qed.

(** ** The implicit receive path *)

(** [receive] (lines 94-99) is the body of [receiveFunds] without the
    [require(msg.value > 0)] of line 59.  With a value [v > 0] the two give
    the same outcome for every sender and world: the same revert, or the
    same new balances, counters and events.  With no value the missing
    guard shows: [receiveFunds] reverts with "No funds sent", while
    [receive] goes through, keeps every recorded balance, [totalReceived]
    and the value held, and appends [FundsReceived(sender, 0)] and
    [BalanceUpdated(sender, balance)]. *)
Lemma receive_against_receiveFunds
    (s : address) (v : uint256) (w : World) :
  (0 < v ->
   receive E s v w = receiveFunds E s v w /\
   step E w (Tx_receive s v) = step E w (Tx_receiveFunds s v)) /\
  (getUserBalance w s <= MAX_UINT256 ->
   totalReceived (rc w) <= MAX_UINT256 ->
   receiveFunds E s 0 w = Revert No_funds_sent /\
   exists w',
     receive E s 0 w = Ok w' /\
     (forall a, getUserBalance w' a = getUserBalance w a) /\
     totalReceived (rc w') = totalReceived (rc w) /\
     getBalance E w' = getBalance E w /\
     events w' =
       events w ++ [FundsReceived s 0; BalanceUpdated s (getUserBalance w s)]).
Proof.
  split.
  - intros Hv. unfold step. simpl. by rewrite receiveFunds_receive.
  - intros Hb Ht. split; [apply receiveFunds_zero|].
    destruct (receive_ok s 0 w) as (w' & Hw' & Hcr); [lia..|].
    exists w'. destruct Hcr as (Hbal & Htot & _ & _ & Hev & Hpool).
    rewrite N.add_0_r in *. split_and!; try done.
    + intros a. unfold getUserBalance in *. rewrite Hbal.
      destruct (decide (s = a)) as [->|Hne].
      * apply get_insert_eq.
      * by apply get_insert_ne.
    + by destruct (decide (s = (receiver_addr E))); rewrite Hpool, ?N.add_0_r.
Qed.

(** ** Internal transfers: the bookkeeping *)

Lemma transferTo_bookkeeping_short a b amt w :
  getUserBalance w a < amt ->
  transferTo_bookkeeping a b amt w = Revert Insufficient_balance.
Proof.
  intros H. unfold transferTo_bookkeeping. apply N.leb_gt in H. by rewrite H.
Qed.

Lemma transferTo_bookkeeping_inv a b amt w w1 :
  transferTo_bookkeeping a b amt w = Ok w1 ->
  amt <= getUserBalance w a /\
  get (<[a := getUserBalance w a - amt]> (balances (rc w))) b + amt <= MAX_UINT256 /\
  w1 = set_balances
         (<[b := get (<[a := getUserBalance w a - amt]> (balances (rc w))) b + amt]>
            (<[a := getUserBalance w a - amt]> (balances (rc w)))) w.
Proof.
  unfold transferTo_bookkeeping.
  destruct (N.leb_spec amt (getUserBalance w a)) as [Ha|Ha]; [|done]. simpl.
  rewrite checked_sub_ok by done. unfold getUserBalance in *. simpl.
  destruct (checked_add _ amt) as [x|] eqn:Hx; [|done].
  apply checked_add_inv in Hx as [-> Hx]. simpl. by intros [= <-].
Qed.

Lemma transferTo_bookkeeping_ok a b amt w :
  amt <= getUserBalance w a ->
  getUserBalance w a + getUserBalance w b <= MAX_UINT256 ->
  transferTo_bookkeeping a b amt w =
  Ok (set_balances
        (<[b := get (<[a := getUserBalance w a - amt]> (balances (rc w))) b + amt]>
           (<[a := getUserBalance w a - amt]> (balances (rc w)))) w).
Proof.
  intros Ha Hsum. unfold transferTo_bookkeeping.
  apply N.leb_le in Ha as Ha'. rewrite Ha'. simpl.
  rewrite checked_sub_ok by done. unfold getUserBalance in *. simpl.
  rewrite checked_add_ok; [done|].
  destruct (decide (a = b)) as [->|Hne].
  - rewrite get_insert_eq. lia.
  - rewrite get_insert_ne by done. lia.
Qed.

(** C4.  When the sender's recorded balance is below the amount,
    [transferTo] reverts with "Insufficient balance", whatever the
    recipient, and the world (both balances and everything else) is as it
    was. *)
Theorem C4_transferTo_insufficient_balance
    (a b : address) (amt : uint256) (w : World) :
  getUserBalance w a < amt ->
  transferTo E a b amt w = Revert Insufficient_balance /\
  step E w (Tx_transferTo a b amt) = w.
Proof.
  intros H. unfold step. simpl. unfold transferTo.
  by rewrite transferTo_bookkeeping_short.
Qed.

(** ** The owner *)

Lemma call_empty_keeps_owner s b v w w' :
  extern_keeps_owner E ->
  call_empty E s b v w = Some w' -> owner (rc w') = owner (rc w).
Proof.
  intros Hext. unfold call_empty.
  destruct (b =? (receiver_addr E)).
  - destruct (receive E s v w) as [w1|] eqn:Hr; [|done]. intros [= <-].
    apply receive_inv in Hr as (_ & _ & _ & Hcr). apply Hcr.
  - destruct (pay s b v w) as [w1|] eqn:Hp; [|done].
    apply pay_inv in Hp as (_ & Hrc & _).
    destruct (b =? (caller_addr E)).
    + intros [= <-]. by rewrite Hrc.
    + intros Hx. apply Hext in Hx. by rewrite Hx, Hrc.
Qed.

Lemma send_transfer_keeps_owner s b v w w' :
  extern_keeps_owner E ->
  send_transfer E s b v w = Some w' -> owner (rc w') = owner (rc w).
Proof.
  intros _. unfold send_transfer.
  destruct (b =? (receiver_addr E)); [done|].
  destruct (pay s b v w) as [w1|] eqn:Hp; [|done].
  apply pay_inv in Hp as (_ & Hrc & _).
  destruct (b =? (caller_addr E)).
  - intros [= <-]. by rewrite Hrc.
  - destruct (extern_stipend E b s v w1); [|done]. intros [= <-]. by rewrite Hrc.
Qed.

Lemma transferTo_keeps_owner a b amt w w' :
  extern_keeps_owner E ->
  transferTo E a b amt w = Ok w' -> owner (rc w') = owner (rc w).
Proof.
  intros Hext. unfold transferTo.
  destruct (transferTo_bookkeeping a b amt w) as [w1|] eqn:Hb; [|done]. simpl.
  apply transferTo_bookkeeping_inv in Hb as (_ & _ & ->).
  destruct (call_empty E _ _ _ _) as [w2|] eqn:Hc; [|done]. intros [= <-].
  apply call_empty_keeps_owner in Hc; done.
Qed.

Lemma exec_keeps_owner tx w w' :
  extern_keeps_owner E ->
  exec E tx w = Ok w' -> owner (rc w') = owner (rc w).
Proof.
  intros Hext.
  destruct tx as [s v|s v|a b amt|s v b amt|s amt|s v|s b amt|s v]; simpl.
  - intros H. apply receiveFunds_inv in H as (_ & _ & Hcr). apply Hcr.
  - intros H. apply receive_inv in H as (_ & _ & _ & Hcr). apply Hcr.
  - by apply transferTo_keeps_owner.
  - unfold transferWithValue.
    destruct (pay s (receiver_addr E) v w) as [w1|] eqn:Hp; [|done]. simpl.
    apply pay_inv in Hp as (_ & Hrc & _).
    destruct (require _ _); [|done]. simpl.
    destruct (call_empty E _ _ _ _) as [w2|] eqn:Hc; [|done]. intros [= <-].
    apply call_empty_keeps_owner in Hc; [|done]. simpl. by rewrite Hc, Hrc.
  - unfold withdraw. destruct (require _ _); [|done]. simpl.
    destruct (send_transfer E _ _ _ _) as [w2|] eqn:Hc; [|done]. intros [= <-].
    by apply send_transfer_keeps_owner in Hc.
  - unfold callReceiverContract.
    destruct (pay s (caller_addr E) v w) as [w1|] eqn:Hp; [|done]. simpl.
    apply pay_inv in Hp as (_ & Hrc & _).
    destruct (require _ _); [|done]. simpl.
    destruct (call_receiveFunds E _ _ _ _) as [w2|] eqn:Hc; [|done]. simpl.
    destruct (checked_add _ _); [|done]. simpl. intros [= <-]. simpl.
    rewrite <- Hrc. revert Hc. unfold call_receiveFunds.
    destruct (_ =? (receiver_addr E)).
    { intros H. apply receiveFunds_inv in H as (_ & _ & Hcr). apply Hcr. }
    destruct (_ =? (caller_addr E)); [done|].
    destruct (pay _ _ _ w1) as [w3|] eqn:Hp3; [|done]. simpl.
    apply pay_inv in Hp3 as (_ & Hrc3 & _).
    destruct (extern E _ _ _ _ _) as [w4|] eqn:Hx; [|done]. intros [= <-].
    apply Hext in Hx. by rewrite Hx, Hrc3.
  - unfold triggerInternalTransfer.
    destruct (call_transferTo E _ _ _ _ _) as [w2|] eqn:Hc; [|done]. simpl.
    intros [= <-]. simpl. revert Hc. unfold call_transferTo.
    destruct (_ =? (receiver_addr E)); [by apply transferTo_keeps_owner|].
    destruct (_ =? (caller_addr E)); [done|].
    destruct (extern E _ _ _ _ _) as [w4|] eqn:Hx; [|done]. intros [= <-].
    by apply Hext in Hx.
  - unfold ContractCaller_receive. intros Hp.
    apply pay_inv in Hp as (_ & Hrc & _). by rewrite Hrc.
Qed.

Lemma run_keeps_owner txs w :
  extern_keeps_owner E -> owner (rc (run E txs w)) = owner (rc w).
Proof.
  intros Hext. revert w. induction txs as [|tx txs IH]; intros w; [done|].
  unfold run. simpl. fold (run E txs (step E w tx)). rewrite IH. unfold step.
  destruct (exec E tx w) as [w'|] eqn:He; [|done]. by eapply exec_keeps_owner.
Qed.

(** C7.  [withdraw] called by anyone but the owner reverts with "Only owner
    can withdraw" and the world is as it was; hence a [withdraw] that
    succeeds was called by the owner.  The owner is the account that
    deployed the ReceiverContract, and stays so after any transactions
    (third parties have no write access to the slot). *)
Theorem C7_withdraw_only_by_owner (s : address) (amt : uint256) (w : World) :
  (s ≠ owner (rc w) ->
   withdraw E s amt w = Revert Only_owner_can_withdraw /\
   step E w (Tx_withdraw s amt) = w) /\
  (forall w', withdraw E s amt w = Ok w' -> s = owner (rc w)) /\
  (forall wei0 deployer target txs,
     extern_keeps_owner E ->
     owner (rc (run E txs (deployed wei0 deployer target))) = deployer).
Proof.
  assert (s ≠ owner (rc w) -> withdraw E s amt w = Revert Only_owner_can_withdraw) as Hno.
  { intros Hs. unfold withdraw. apply N.eqb_neq in Hs. by rewrite Hs. }
  split_and!.
  - intros Hs. unfold step. simpl. by rewrite Hno.
  - intros w' Hw'. destruct (decide (s = owner (rc w))) as [|Hs]; [done|].
    by rewrite Hno in Hw'.
  - intros wei0 deployer target txs Hext. by rewrite run_keeps_owner.
Qed.

(** C10.  When the owner asks [withdraw] for more than the ReceiverContract
    holds, the check on the caller passes, the value transfer to the owner
    cannot be made, and the call reverts without a reason string (no
    [require] of the contract guards the amount); the world is as it
    was. *)
Theorem C10_withdraw_beyond_pool (amt : uint256) (w : World) :
  getBalance E w < amt ->
  withdraw E (owner (rc w)) amt w = Revert NoReason /\
  step E w (Tx_withdraw (owner (rc w)) amt) = w.
Proof.
  intros Hlt.
  assert (withdraw E (owner (rc w)) amt w = Revert NoReason) as Hrev.
  { unfold withdraw. rewrite N.eqb_refl. simpl. unfold send_transfer.
    destruct (_ =? (receiver_addr E)); [done|].
    by rewrite pay_short. }
  unfold step. simpl. by rewrite Hrev.
Qed.

(** ** Internal transfers: the call to the recipient and the events *)

Lemma call_empty_quiet s b v w w' :
  b ≠ (receiver_addr E) ->
  b = (caller_addr E) \/ no_callback E b ->
  call_empty E s b v w = Some w' -> pay s b v w = Ok w'.
Proof.
  intros Hb Hq. unfold call_empty.
  apply N.eqb_neq in Hb. rewrite Hb.
  destruct (pay s b v w) as [w1|]; [|done].
  destruct (N.eqb_spec b (caller_addr E)) as [Hc|Hc]; [by intros [= <-]|].
  destruct Hq as [|Hq]; [done|]. intros Hx. by rewrite (Hq _ _ _ _ Hx).
Qed.

Lemma emitted_app w w' l : events w' = events w ++ l -> emitted w w' = l.
Proof. intros H. unfold emitted. rewrite H. apply drop_app_length. Qed.

Lemma moved_balances (m : gmap N N) a b amt :
  amt <= get m a ->
  let m' := <[b := get (<[a := get m a - amt]> m) b + amt]> (<[a := get m a - amt]> m) in
  get m' a + get m' b = get m a + get m b /\
  (a ≠ b -> get m' a = get m a - amt /\ get m' b = get m b + amt) /\
  (forall c, c ≠ a -> c ≠ b -> get m' c = get m c).
Proof.
  intros Ha m'. subst m'. split_and!.
  - destruct (decide (a = b)) as [->|Hne].
    + rewrite !get_insert_eq. lia.
    + rewrite get_insert_eq, (get_insert_ne _ b a) by done.
      rewrite get_insert_eq, get_insert_ne by done. lia.
  - intros Hne. rewrite get_insert_eq, (get_insert_ne _ b a) by done.
    by rewrite get_insert_eq, get_insert_ne.
  - intros c Hca Hcb. by rewrite !get_insert_ne.
Qed.

Lemma transferTo_emit_spec a b amt w :
  rc (transferTo_emit a b amt w) = rc w /\
  wei (transferTo_emit a b amt w) = wei w /\
  cc (transferTo_emit a b amt w) = cc w /\
  events (transferTo_emit a b amt w) =
    events w ++ [InternalTransferExecuted a b amt;
                 BalanceUpdated a (getUserBalance w a);
                 BalanceUpdated b (getUserBalance w b)].
Proof.
  unfold transferTo_emit. simpl. by rewrite <- !app_assoc.
Qed.

(** C3 (amended).  For a recipient other than the ReceiverContract itself
    whose code does not call back (an account without code, the
    ContractCaller, a contract that only accepts), a [transferTo] that
    succeeds had a sufficient sender balance, moves the amount from the
    sender's recorded balance to the recipient's, so their sum is kept,
    leaves every other balance, [totalReceived] and the value held alone,
    and appends exactly [InternalTransferExecuted(sender, recipient,
    amount)], [BalanceUpdated(sender, _)], [BalanceUpdated(recipient, _)],
    in this order. *)
Theorem C3_transferTo_conserves_and_emits
    (a b : address) (amt : uint256) (w w' : World) :
  b ≠ (receiver_addr E) ->
  b = (caller_addr E) \/ no_callback E b ->
  transferTo E a b amt w = Ok w' ->
  amt <= getUserBalance w a /\
  getUserBalance w' a + getUserBalance w' b =
    getUserBalance w a + getUserBalance w b /\
  (a ≠ b ->
   getUserBalance w' a = getUserBalance w a - amt /\
   getUserBalance w' b = getUserBalance w b + amt) /\
  (forall c, c ≠ a -> c ≠ b -> getUserBalance w' c = getUserBalance w c) /\
  totalReceived (rc w') = totalReceived (rc w) /\
  getBalance E w' = getBalance E w /\
  events w' = events w ++ emitted w w' /\
  emitted w w' =
    [InternalTransferExecuted a b amt;
     BalanceUpdated a (getUserBalance w' a);
     BalanceUpdated b (getUserBalance w' b)] /\
  count_events is_InternalTransferExecuted (emitted w w') = 1%nat /\
  count_events is_BalanceUpdated (emitted w w') = 2%nat.
Proof.
  intros Hb Hq. unfold transferTo.
  destruct (transferTo_bookkeeping a b amt w) as [w1|] eqn:Hbk; [|done]. simpl.
  apply transferTo_bookkeeping_inv in Hbk as (Ha & _ & Hw1).
  destruct (call_empty E _ _ _ _) as [w2|] eqn:Hc; [|done]. intros [= <-].
  apply call_empty_quiet in Hc; [|done..].
  pose proof (pay_zero _ _ _ _ Hc (receiver_addr E)) as Hwei.
  apply pay_inv in Hc as (_ & Hrc & _ & Hev & _).
  destruct (transferTo_emit_spec a b amt w2) as (Hrc' & Hwei' & _ & Hev').
  destruct (moved_balances (balances (rc w)) a b amt Ha) as (Hsum & Hmv & Hoth).
  assert (rc (transferTo_emit a b amt w2) = rc w1) as Hrc1 by (by rewrite Hrc').
  assert (events (transferTo_emit a b amt w2) =
          events w ++ [InternalTransferExecuted a b amt;
                       BalanceUpdated a (getUserBalance (transferTo_emit a b amt w2) a);
                       BalanceUpdated b (getUserBalance (transferTo_emit a b amt w2) b)])
    as Hevs.
  { rewrite Hev', Hev, Hw1. unfold getUserBalance. by rewrite Hrc'. }
  rewrite (emitted_app _ _ _ Hevs).
  unfold getUserBalance, getBalance, balance_of in *.
  rewrite Hwei', Hwei. split_and!; try done; rewrite ?Hevs, ?Hrc1, Hw1; done.
Qed.

(** C5 (amended).  [transferTo] first checks the sender's balance, then
    writes both balances, then makes the zero-value call to the recipient,
    and emits its three events last.  The recipient is called in the world
    [w1] in which the amount has already moved and nothing has been
    emitted yet.  If that call fails, [transferTo] reverts with "Transfer
    failed" and the world, both balances included, is as it was; if it
    succeeds, the three events are appended to the world the call left. *)
Theorem C5_transferTo_writes_then_calls_then_emits
    (a b : address) (amt : uint256) (w : World) :
  amt <= getUserBalance w a ->
  getUserBalance w a + getUserBalance w b <= MAX_UINT256 ->
  exists w1,
    transferTo_bookkeeping a b amt w = Ok w1 /\
    events w1 = events w /\ wei w1 = wei w /\
    getUserBalance w1 a + getUserBalance w1 b =
      getUserBalance w a + getUserBalance w b /\
    (a ≠ b ->
     getUserBalance w1 a = getUserBalance w a - amt /\
     getUserBalance w1 b = getUserBalance w b + amt) /\
    match call_empty E (receiver_addr E) b 0 w1 with
    | None =>
        transferTo E a b amt w = Revert Transfer_failed /\
        step E w (Tx_transferTo a b amt) = w
    | Some w2 =>
        exists w',
          transferTo E a b amt w = Ok w' /\
          step E w (Tx_transferTo a b amt) = w' /\
          rc w' = rc w2 /\ wei w' = wei w2 /\
          events w' =
            events w2 ++ [InternalTransferExecuted a b amt;
                          BalanceUpdated a (getUserBalance w2 a);
                          BalanceUpdated b (getUserBalance w2 b)]
    end.
Proof.
  intros Ha Hsum. eexists. split; [by apply transferTo_bookkeeping_ok|].
  destruct (moved_balances (balances (rc w)) a b amt Ha) as (Hs & Hmv & _).
  split_and!; try done.
  unfold step. simpl. unfold transferTo.
  rewrite transferTo_bookkeeping_ok by done. simpl.
  destruct (call_empty E _ _ _ _) as [w2|]; [|done].
  eexists. split_and!; try done.
  unfold transferTo_emit. simpl. by rewrite <- !app_assoc.
Qed.

(** ** Value leaving the contract *)

(** C9 (amended).  [transferWithValue] first takes the value sent with the
    call.  It reverts with "Contract has insufficient balance" when the
    contract then holds less than the amount, and with "ETH transfer
    failed" when the call that carries the amount to the recipient fails.
    When it succeeds for a recipient other than the ReceiverContract
    itself whose code does not call back, the amount has left the value
    held, the storage of the contract (every recorded balance and
    [totalReceived]) is as it was, and the one event added is
    [InternalTransferExecuted(ReceiverContract, recipient, amount)]. *)
Theorem C9_transferWithValue_frame
    (s : address) (v : uint256) (b : address) (amt : uint256) (w : World) :
  (forall w1, pay s (receiver_addr E) v w = Ok w1 ->
     (getBalance E w1 < amt ->
      transferWithValue E s v b amt w = Revert Contract_has_insufficient_balance /\
      step E w (Tx_transferWithValue s v b amt) = w) /\
     (amt <= getBalance E w1 ->
      call_empty E (receiver_addr E) b amt w1 = None ->
      transferWithValue E s v b amt w = Revert ETH_transfer_failed /\
      step E w (Tx_transferWithValue s v b amt) = w)) /\
  (b ≠ (receiver_addr E) ->
   b = (caller_addr E) \/ no_callback E b ->
   forall w', transferWithValue E s v b amt w = Ok w' ->
     exists w1,
       pay s (receiver_addr E) v w = Ok w1 /\
       (s ≠ (receiver_addr E) -> getBalance E w1 = getBalance E w + v) /\
       amt <= getBalance E w1 /\
       getBalance E w' = getBalance E w1 - amt /\
       balance_of w' b = balance_of w1 b + amt /\
       rc w' = rc w /\
       cc w' = cc w /\
       emitted w w' = [InternalTransferExecuted (receiver_addr E) b amt] /\
       events w' = events w ++ emitted w w').
Proof.
  split.
  - intros w1 Hp. unfold step. simpl. unfold transferWithValue. rewrite Hp. simpl.
    split.
    + intros Hlt. apply N.leb_gt in Hlt. by rewrite Hlt.
    + intros Hle Hc. apply N.leb_le in Hle. rewrite Hle. simpl. by rewrite Hc.
  - intros Hb Hq w'. unfold transferWithValue.
    destruct (pay s (receiver_addr E) v w) as [w1|] eqn:Hp; [|done]. simpl.
    destruct (N.leb_spec amt (getBalance E w1)) as [Hle|Hlt]; [|done]. simpl.
    destruct (call_empty E _ _ _ _) as [w2|] eqn:Hc; [|done]. intros [= <-].
    apply call_empty_quiet in Hc; [|done..].
    exists w1. apply pay_inv in Hp as (_ & Hrc1 & Hcc1 & Hev1 & Hdst1 & _).
    assert (getBalance E w2 = getBalance E w1 - amt) as Hpool.
    { revert Hc. unfold pay, getBalance in *.
      destruct (amt <=? balance_of w1 (receiver_addr E)); [|done]. intros [= <-].
      unfold balance_of. simpl. rewrite get_insert_ne, get_insert_eq by done. done. }
    apply pay_inv in Hc as (_ & Hrc2 & Hcc2 & Hev2 & Hdst2 & _).
    rewrite decide_False in Hdst2 by done.
    assert (events (emit (InternalTransferExecuted (receiver_addr E) b amt) w2) =
            events w ++ [InternalTransferExecuted (receiver_addr E) b amt]) as Hevs.
    { simpl. by rewrite Hev2, Hev1. }
    rewrite (emitted_app _ _ _ Hevs). simpl.
    rewrite Hrc2, Hrc1, Hcc2, Hcc1. split_and!; try done.
    intros Hs. by rewrite decide_False in Hdst1.
Qed.

(** ** Forwarded deposits *)

(** C8.  [callReceiverContract] with no value reverts with "Must send some
    ETH" before anything is forwarded, and the world is as it was.  When
    the ContractCaller points at the ReceiverContract and the sender holds
    [n > 0], it forwards [n] to [receiveFunds]: if that call reverts, the
    whole operation reverts with the same error and the world, the
    transfer counter included, is as it was; while the counters stay
    within [uint256] it succeeds, the ReceiverContract holds [n] more, the
    balance recorded for the ContractCaller (not for the sender) is [n]
    higher, [totalTransfers] is one higher, and the events added are those
    of the deposit followed by [ContractCallMade(sender, ReceiverContract,
    n)]. *)
Theorem C8_callReceiverContract_forwards
    (s : address) (n : uint256) (w : World) :
  (callReceiverContract E s 0 w = Revert Must_send_some_ETH /\
   step E w (Tx_callReceiverContract s 0) = w) /\
  (receiverContract (cc w) = (receiver_addr E) ->
   0 < n ->
   forall w1, pay s (caller_addr E) n w = Ok w1 ->
   (forall e, receiveFunds E (caller_addr E) n w1 = Revert e ->
      callReceiverContract E s n w = Revert e /\
      step E w (Tx_callReceiverContract s n) = w) /\
   ((caller_addr E) ≠ (receiver_addr E) ->
    s ≠ (receiver_addr E) ->
    getUserBalance w (caller_addr E) + n <= MAX_UINT256 ->
    totalReceived (rc w) + n <= MAX_UINT256 ->
    totalTransfers (cc w) + 1 <= MAX_UINT256 ->
    exists w',
      callReceiverContract E s n w = Ok w' /\
      step E w (Tx_callReceiverContract s n) = w' /\
      getBalance E w' = getBalance E w + n /\
      getUserBalance w' (caller_addr E) = getUserBalance w (caller_addr E) + n /\
      (forall a, a ≠ (caller_addr E) -> getUserBalance w' a = getUserBalance w a) /\
      totalReceived (rc w') = totalReceived (rc w) + n /\
      totalTransfers (cc w') = totalTransfers (cc w) + 1 /\
      receiverContract (cc w') = (receiver_addr E) /\
      events w' =
        events w ++ [FundsReceived (caller_addr E) n;
                     BalanceUpdated (caller_addr E) (getUserBalance w' (caller_addr E));
                     ContractCallMade s (receiver_addr E) n])).
Proof.
  split.
  - assert (callReceiverContract E s 0 w = Revert Must_send_some_ETH) as H0.
    { unfold callReceiverContract. by rewrite pay_ok by lia. }
    unfold step. simpl. by rewrite H0.
  - intros Htarget Hn w1 Hp.
    assert (callReceiverContract E s n w =
            let* w2 := receiveFunds E (caller_addr E) n w1 in
            let* k := checked_add (totalTransfers (cc w2)) 1 in
            Ok (emit (ContractCallMade s (receiverContract (cc w2)) n)
                     (set_totalTransfers k w2))) as Hunf.
    { unfold callReceiverContract. rewrite Hp. simpl.
      apply N.ltb_lt in Hn as Hn'. rewrite Hn'. simpl.
      unfold call_receiveFunds.
      pose proof Hp as Hp'. apply pay_inv in Hp' as (_ & _ & -> & _).
      by rewrite Htarget, N.eqb_refl. }
    pose proof Hp as Hp'.
    apply pay_inv in Hp' as (Hv & Hrc & Hcc & Hev & Hdst & Hoth).
    split.
    + intros e He. unfold step. simpl. by rewrite Hunf, He.
    + intros Hcr Hs Hb Ht Hk.
      destruct (receive_ok (caller_addr E) n w1) as (w2 & Hw2 & Hcred).
      { destruct (decide (s = (caller_addr E))) as [->|]; lia. }
      { unfold getUserBalance in *. by rewrite Hrc. }
      { by rewrite Hrc. }
      rewrite <- receiveFunds_receive in Hw2 by done.
      destruct Hcred as (Hbal & Htot & _ & Hcc2 & Hev2 & Hpool).
      rewrite decide_False in Hpool by done.
      unfold step. simpl. rewrite Hunf, Hw2. simpl.
      rewrite Hcc2, Hcc, checked_add_ok by done. simpl.
      eexists. split; [done|]. split; [done|].
      unfold getUserBalance, getBalance, balance_of in *. simpl.
      rewrite Hbal, Htot, Hev2, Hpool, Hcc2, Hcc, Hrc, Hev, Htarget, get_insert_eq.
      rewrite (Hoth (receiver_addr E)) by done. simpl.
      split_and!; try done.
      * intros a Ha. by rewrite get_insert_ne.
      * by rewrite <- app_assoc.
Qed.

End Properties.

(** * Further properties *)

(** Goals about every account follow from the hypotheses about every
    account, taken at that account. *)
Ltac at_each_account :=
  try done;
  try (intros;
       repeat match goal with
              | x : N, H : forall y : N, _ |- _ => specialize (H x)
              end;
       lia).

(** The tallies of the script of each kind of transaction, by cases. *)
Ltac by_script :=
  repeat match goal with
         | tx : Tx |- _ => destruct tx
         end;
  simpl in *; unfold probe_acts in *;
  repeat (case_decide; simpl in *); subst; simpl in *;
  try done; try lia.

Section Further.

Variable E : Env.

(** ** Steps of the code as ledger steps *)

Lemma keeps_refl w : keeps w w.
Proof. unfold keeps. split_and!; try done. exists []. by rewrite app_nil_r. Qed.

Lemma keeps_trans w1 w2 w3 : keeps w1 w2 -> keeps w2 w3 -> keeps w1 w3.
Proof.
  intros (Ho1 & Ht1 & l1 & He1) (Ho2 & Ht2 & l2 & He2). unfold keeps.
  rewrite Ho2, Ho1, Ht2, Ht1. split_and!; try done.
  exists (l1 ++ l2). by rewrite He2, He1, app_assoc.
Qed.

Lemma same_refl w : same w w.
Proof. unfold same. split_and!; try done. apply keeps_refl. Qed.

Lemma emit_same e w : same w (emit e w).
Proof.
  unfold same, keeps. simpl. split_and!; try done. by exists [e].
Qed.

Lemma same_trans w1 w2 w3 : same w1 w2 -> same w2 w3 -> same w1 w3.
Proof.
  intros (Hk1 & Hw1 & Hb1 & Hs1 & Ht1 & Hn1) (Hk2 & Hw2 & Hb2 & Hs2 & Ht2 & Hn2).
  unfold same. split_and!.
  - by eapply keeps_trans.
  - intros x. by rewrite Hw2.
  - intros x. by rewrite Hb2.
  - by rewrite Hs2.
  - by rewrite Ht2.
  - by rewrite Hn2.
Qed.

Lemma does_same_r a w1 w2 w3 : does a w1 w2 -> same w2 w3 -> does a w1 w3.
Proof.
  intros [Hk Ha] (Hk2 & Hw2 & Hb2 & Hs2 & Ht2 & Hn2). split.
  { by eapply keeps_trans. }
  destruct a as [src dst v|s v|a b amt|]; simpl in *.
  - destruct Ha as (H1 & H2 & H3 & H4 & H5 & H6). split_and!; try done.
    + intros x. rewrite Hw2. apply H2.
    + intros x. by rewrite Hb2.
    + by rewrite Hs2.
    + by rewrite Ht2.
    + by rewrite Hn2.
  - destruct Ha as (H1 & H2 & H3 & H4 & H5 & H6). split_and!.
    + intros x. by rewrite Hw2.
    + intros x. rewrite Hb2. apply H2.
    + by rewrite Hs2.
    + by rewrite Ht2.
    + by rewrite Ht2.
    + by rewrite Hn2.
  - destruct Ha as (H1 & H2 & H3 & H4 & H5 & H6). split_and!; try done.
    + intros x. by rewrite Hw2.
    + intros x. rewrite Hb2. apply H3.
    + by rewrite Hs2.
    + by rewrite Ht2.
    + by rewrite Hn2.
  - destruct Ha as (H1 & H2 & H3 & H4 & H5). split_and!.
    + intros x. by rewrite Hw2.
    + intros x. by rewrite Hb2.
    + by rewrite Hs2.
    + by rewrite Ht2.
    + by rewrite Hn2.
Qed.

Lemma path_same_r acts w1 w2 w3 : path acts w1 w2 -> same w2 w3 -> path acts w1 w3.
Proof.
  revert w1. induction acts as [|a acts IH]; intros w1; simpl.
  - intros H1 H2. by eapply same_trans.
  - intros (w & Ha & Hp) Hs. exists w. split; [done|]. by apply IH.
Qed.

Lemma path_app acts1 acts2 w1 w2 w3 :
  path acts1 w1 w2 -> path acts2 w2 w3 -> path (acts1 ++ acts2) w1 w3.
Proof.
  revert w1. induction acts1 as [|a acts1 IH]; intros w1; simpl.
  - revert w1 w2. destruct acts2 as [|b acts2]; simpl.
    + intros w1 w2 H1 H2. by eapply same_trans.
    + intros w1 w2 (Hk & Hw & Hb & Hs & Ht & Hn) (w & [Hkb Hb2] & Hp).
      exists w. split; [|done]. split; [by eapply keeps_trans|].
      destruct b as [src dst v|s v|a b amt|]; simpl in *.
      * destruct Hb2 as (H1 & H2 & H3 & H4 & H5 & H6).
        rewrite Hw in H1. rewrite H4, H5, H6. split_and!; try done.
        -- intros x. rewrite H2. by rewrite Hw.
        -- intros x. by rewrite H3.
      * destruct Hb2 as (H1 & H2 & H3 & H4 & H5 & H6).
        rewrite H3, H4, H6. split_and!; try done.
        -- intros x. by rewrite H1.
        -- intros x. by rewrite H2, Hb.
        -- by rewrite Hs.
        -- by rewrite Ht.
        -- by rewrite <- H4.
      * destruct Hb2 as (H1 & H2 & H3 & H4 & H5 & H6).
        rewrite Hb in H1. rewrite H4, H5, H6. split_and!; try done.
        -- intros x. by rewrite H2.
        -- intros x. by rewrite H3, Hb.
      * destruct Hb2 as (H1 & H2 & H3 & H4 & H5).
        rewrite H3, H4, H5. split_and!; try done.
        -- intros x. by rewrite H1.
        -- intros x. by rewrite H2.
        -- by rewrite Hn.
  - intros (w & Ha & Hp) H2. exists w. split; [done|]. by eapply IH.
Qed.

Lemma pay_does src dst v w w' :
  pay src dst v w = Ok w' -> does (A_pay src dst v) w w'.
Proof.
  intros Hp. pose proof Hp as Hp'.
  apply pay_inv in Hp' as (Hv & Hrc & Hcc & Hev & _).
  split.
  { unfold keeps. rewrite Hrc, Hcc, Hev. split_and!; try done.
    exists []. by rewrite app_nil_r. }
  simpl. unfold getUserBalance. rewrite Hrc, Hcc. split_and!; try done.
  revert Hp. unfold pay. apply N.leb_le in Hv as Hv'. rewrite Hv'. intros [= <-] x.
  unfold balance_of in *. simpl.
  destruct (decide (x = src)) as [Hs|Hs]; destruct (decide (x = dst)) as [Hd|Hd];
    subst.
  - rewrite !get_insert_eq. lia.
  - rewrite get_insert_ne, get_insert_eq by done. lia.
  - rewrite get_insert_eq, get_insert_ne by done. lia.
  - rewrite !get_insert_ne by done. lia.
Qed.

Lemma receive_path s v w w' :
  receive E s v w = Ok w' ->
  path [A_pay s (receiver_addr E) v; A_deposit s v] w w'.
Proof.
  unfold receive.
  destruct (pay s (receiver_addr E) v w) as [w1|] eqn:Hp; [|done]. simpl.
  destruct (checked_add (getUserBalance w1 s) v) as [b|] eqn:Hb; [|done].
  apply checked_add_inv in Hb as [-> Hb]. simpl.
  destruct (checked_add (totalReceived (rc w1)) v) as [t|] eqn:Ht; [|done].
  apply checked_add_inv in Ht as [-> Ht]. simpl.
  intros [= <-]. exists w1. split; [by apply pay_does|].
  eexists. split; [|apply same_refl].
  split.
  { unfold keeps. simpl. split_and!; try done.
    eexists. by rewrite <- app_assoc. }
  simpl. unfold getUserBalance, balance_of. simpl. split_and!; try done.
  - intros x. destruct (decide (x = s)) as [->|Hx].
    + by rewrite get_insert_eq.
    + rewrite get_insert_ne by done. lia.
  - pose proof (sum_balances_insert (balances (rc w1)) s
                  (get (balances (rc w1)) s + v)). lia.
Qed.

Lemma receiveFunds_path s v w w' :
  receiveFunds E s v w = Ok w' ->
  0 < v /\ path [A_pay s (receiver_addr E) v; A_deposit s v] w w'.
Proof.
  intros H. destruct (N.eq_dec v 0) as [->|Hv].
  - by rewrite receiveFunds_zero in H.
  - assert (0 < v) as Hpos by lia. split; [done|].
    rewrite receiveFunds_receive in H by done. by apply receive_path.
Qed.

Lemma moved_get (m : gmap N N) a b amt x :
  amt <= get m a ->
  get (<[b := get (<[a := get m a - amt]> m) b + amt]> (<[a := get m a - amt]> m)) x
    + (if decide (x = a) then amt else 0)
  = get m x + (if decide (x = b) then amt else 0).
Proof.
  intros Ha.
  destruct (decide (x = a)) as [Hxa|Hxa]; destruct (decide (x = b)) as [Hxb|Hxb];
    subst.
  - rewrite !get_insert_eq. lia.
  - rewrite get_insert_ne, get_insert_eq by done. lia.
  - rewrite get_insert_eq, get_insert_ne by done. lia.
  - rewrite !get_insert_ne by done. lia.
Qed.

Lemma moved_sum (m : gmap N N) a b amt :
  amt <= get m a ->
  sum_balances (<[b := get (<[a := get m a - amt]> m) b + amt]> (<[a := get m a - amt]> m))
  = sum_balances m.
Proof.
  intros Ha.
  pose proof (sum_balances_insert m a (get m a - amt)) as H1.
  pose proof (sum_balances_insert (<[a := get m a - amt]> m) b
                (get (<[a := get m a - amt]> m) b + amt)) as H2.
  lia.
Qed.

Lemma bookkeeping_does a b amt w w1 :
  transferTo_bookkeeping a b amt w = Ok w1 -> does (A_move a b amt) w w1.
Proof.
  intros H. apply transferTo_bookkeeping_inv in H as (Ha & _ & ->).
  split.
  { unfold keeps. simpl. split_and!; try done. exists []. by rewrite app_nil_r. }
  simpl. unfold getUserBalance in *. simpl. split_and!; try done.
  - intros x. by apply moved_get.
  - by apply moved_sum.
Qed.

Lemma one_step a w w' : does a w w' -> path [a] w w'.
Proof. intros H. exists w'. split; [done|apply same_refl]. Qed.

Lemma call_empty_path b v w w' :
  passive E ->
  call_empty E (receiver_addr E) b v w = Some w' -> path (probe_acts E b v) w w'.
Proof.
  intros Hpas. unfold call_empty, probe_acts.
  destruct (N.eqb_spec b (receiver_addr E)) as [->|Hb].
  - rewrite decide_True by done.
    destruct (receive E _ v w) as [w1|] eqn:Hr; [|done]. intros [= <-].
    by apply receive_path.
  - rewrite decide_False by done.
    destruct (pay _ b v w) as [w1|] eqn:Hp; [|done].
    apply pay_does in Hp. destruct (b =? caller_addr E).
    + intros [= <-]. by apply one_step.
    + intros Hx. apply Hpas in Hx as ->. by apply one_step.
Qed.

Lemma send_transfer_path b v w w' :
  passive E ->
  send_transfer E (receiver_addr E) b v w = Some w' ->
  b ≠ receiver_addr E /\ path [A_pay (receiver_addr E) b v] w w'.
Proof.
  intros _. unfold send_transfer.
  destruct (N.eqb_spec b (receiver_addr E)) as [->|Hb]; [done|].
  destruct (pay _ b v w) as [w1|] eqn:Hp; [|done].
  apply pay_does in Hp. destruct (b =? caller_addr E).
  - intros [= <-]. split; [done|]. by apply one_step.
  - destruct (extern_stipend E b _ v w1); [|done].
    intros [= <-]. split; [done|]. by apply one_step.
Qed.

Lemma transferTo_emit_same a b amt w : same w (transferTo_emit a b amt w).
Proof.
  unfold transferTo_emit.
  eapply same_trans; [|apply emit_same].
  eapply same_trans; [|apply emit_same]. apply emit_same.
Qed.

Lemma transferTo_path a b amt w w' :
  passive E ->
  transferTo E a b amt w = Ok w' ->
  path (A_move a b amt :: probe_acts E b 0) w w'.
Proof.
  intros Hpas. unfold transferTo.
  destruct (transferTo_bookkeeping a b amt w) as [w1|] eqn:Hbk; [|done]. simpl.
  destruct (call_empty E _ b 0 w1) as [w2|] eqn:Hc; [|done]. intros [= <-].
  exists w1. split; [by apply bookkeeping_does|].
  eapply path_same_r; [by apply call_empty_path|]. apply transferTo_emit_same.
Qed.

Lemma bump_does e w k :
  k = totalTransfers (cc w) + 1 ->
  does A_bump w (emit e (set_totalTransfers k w)).
Proof.
  intros ->. split.
  { unfold keeps. simpl. split_and!; try done. by exists [e]. }
  simpl. unfold getUserBalance, balance_of. simpl. by split_and!.
Qed.

(** With passive third parties, a transaction that succeeds did what its
    script says. *)
Lemma exec_script tx w w' :
  passive E -> exec E tx w = Ok w' -> path (script E tx w) w w'.
Proof.
  intros Hpas.
  destruct tx as [s v|s v|a b amt|s v b amt|s amt|s v|s r amt|s v]; simpl.
  - intros H. by apply receiveFunds_path in H as [_ H].
  - apply receive_path.
  - by apply transferTo_path.
  - unfold transferWithValue.
    destruct (pay s _ v w) as [w1|] eqn:Hp; [|done]. simpl.
    destruct (require _ _); [|done]. simpl.
    destruct (call_empty E _ b amt w1) as [w2|] eqn:Hc; [|done]. intros [= <-].
    exists w1. split; [by apply pay_does|].
    eapply path_same_r; [by apply call_empty_path|]. apply emit_same.
  - unfold withdraw. destruct (require _ _); [|done]. simpl.
    destruct (send_transfer E _ _ amt w) as [w2|] eqn:Hc; [|done]. intros [= <-].
    by apply send_transfer_path in Hc as [_ Hc].
  - unfold callReceiverContract.
    destruct (pay s _ v w) as [w1|] eqn:Hp; [|done]. simpl.
    pose proof Hp as Hp'. apply pay_inv in Hp' as (_ & _ & Hcc & _).
    apply pay_does in Hp.
    destruct (require _ _); [|done]. simpl. rewrite Hcc.
    destruct (call_receiveFunds E _ _ v w1) as [w2|] eqn:Hc; [|done]. simpl.
    destruct (checked_add _ 1) as [k|] eqn:Hk; [|done].
    apply checked_add_inv in Hk as [Hk _]. simpl. intros [= <-].
    exists w1. split; [done|]. revert Hc. unfold call_receiveFunds.
    destruct (N.eqb_spec (receiverContract (cc w)) (receiver_addr E)) as [Ht|Ht].
    + rewrite decide_True by done. intros Hc.
      apply receiveFunds_path in Hc as [_ Hc].
      apply (path_app [_; _] [A_bump] _ _ _ Hc). apply one_step. by apply bump_does.
    + rewrite decide_False by done.
      destruct (_ =? caller_addr E); [done|].
      destruct (pay _ _ v w1) as [w3|] eqn:Hp3; [|done]. simpl.
      apply pay_does in Hp3.
      destruct (extern E _ _ _ _ w3) as [w4|] eqn:Hx; [|done]. intros [= <-].
      apply Hpas in Hx as ->.
      exists w3. split; [done|]. apply one_step. by apply bump_does.
  - unfold triggerInternalTransfer.
    destruct (call_transferTo E _ _ r amt w) as [w2|] eqn:Hc; [|done]. simpl.
    intros [= <-]. revert Hc. unfold call_transferTo.
    destruct (N.eqb_spec (receiverContract (cc w)) (receiver_addr E)) as [Ht|Ht].
    + rewrite decide_True by done. intros Hc.
      eapply path_same_r; [by apply transferTo_path|]. apply emit_same.
    + rewrite decide_False by done.
      destruct (_ =? caller_addr E); [done|].
      destruct (extern E _ _ _ _ w) as [w4|] eqn:Hx; [|done]. intros [= <-].
      apply Hpas in Hx as ->. simpl. apply emit_same.
  - unfold ContractCaller_receive. intros Hp. apply one_step. by apply pay_does.
Qed.

(** ** Accounts of a script *)

Lemma path_accounts acts w w' :
  path acts w w' ->
  keeps w w' /\
  (forall x, balance_of w' x + tally (wei_out x) acts
             = balance_of w x + tally (wei_in x) acts) /\
  (forall x, getUserBalance w' x + tally (debit_of x) acts
             = getUserBalance w x + tally (credit_of x) acts) /\
  sum_balances (balances (rc w')) = sum_balances (balances (rc w)) + tally deposit_of acts /\
  totalReceived (rc w') = totalReceived (rc w) + tally deposit_of acts /\
  (totalReceived (rc w) <= MAX_UINT256 -> totalReceived (rc w') <= MAX_UINT256) /\
  totalTransfers (cc w') = totalTransfers (cc w) + tally bump_of acts.
Proof.
  revert w. induction acts as [|a acts IH]; intros w; simpl.
  - intros (Hk & Hw & Hb & Hs & Ht & Hn). rewrite Hs, Ht, Hn.
    split_and!; try done; try lia.
    + intros x. by rewrite Hw.
    + intros x. by rewrite Hb.
  - intros (w1 & [Hk1 Ha] & Hp). apply IH in Hp as (Hk & Hw & Hb & Hs & Ht & Hm & Hn).
    rewrite Hs, Ht, Hn. split; [by eapply keeps_trans|].
    destruct a as [src dst v|s v|a b amt|]; simpl in *.
    + destruct Ha as (H1 & H2 & H3 & H4 & H5 & H6). rewrite H4, H5, H6 in *.
      split_and!; at_each_account.
    + destruct Ha as (H1 & H2 & H3 & H4 & H5 & H6). rewrite H3, H4, H6 in *.
      split_and!; at_each_account.
    + destruct Ha as (H1 & H2 & H3 & H4 & H5 & H6). rewrite H4, H5, H6 in *.
      split_and!; at_each_account.
    + destruct Ha as (H1 & H2 & H3 & H4 & H5). rewrite H3, H4, H5 in *.
      split_and!; at_each_account.
Qed.

(** A transaction either reverts, and the world stays, or succeeds. *)
Lemma step_cases tx w :
  step E w tx = w \/ exec E tx w = Ok (step E w tx).
Proof.
  unfold step. destruct (exec E tx w) as [w'|]; [by right|by left].
Qed.

Lemma run_cons tx txs w : run E (tx :: txs) w = run E txs (step E w tx).
Proof. done. Qed.

Lemma run_invariant (P : World -> Prop) txs w :
  (forall w tx, P w -> P (step E w tx)) -> P w -> P (run E txs w).
Proof.
  intros Hstep. revert w. induction txs as [|tx txs IH]; intros w Hw; [done|].
  rewrite run_cons. apply IH. by apply Hstep.
Qed.

Lemma get_le_sum (m : gmap N N) a : get m a <= sum_balances m.
Proof. pose proof (sum_balances_insert m a 0). lia. Qed.

Lemma get2_le_sum (m : gmap N N) a b : a ≠ b -> get m a + get m b <= sum_balances m.
Proof.
  intros Hab. pose proof (sum_balances_insert m a 0) as H1.
  pose proof (get_le_sum (<[a := 0]> m) b) as H2.
  rewrite get_insert_ne in H2 by done. lia.
Qed.

Lemma step_accounts tx w :
  passive E ->
  step E w tx = w \/ path (script E tx w) w (step E w tx).
Proof.
  intros Hpas. destruct (step_cases tx w) as [H|H]; [by left|right].
  by apply exec_script.
Qed.

(** ** What every run keeps *)

Lemma reachable_balanced (w : World) :
  passive E ->
  reachable E w ->
  sum_balances (balances (rc w)) = totalReceived (rc w) /\
  totalReceived (rc w) <= MAX_UINT256.
Proof.
  intros Hpas (wei0 & deployer & target & txs & ->).
  apply (run_invariant (fun w => sum_balances (balances (rc w)) = totalReceived (rc w)
                                 /\ totalReceived (rc w) <= MAX_UINT256)).
  - intros w tx [Hs Hm]. destruct (step_accounts tx w Hpas) as [->|Hp]; [done|].
    apply path_accounts in Hp as (_ & _ & _ & Hs' & Ht' & Hm' & _).
    split; [lia|by apply Hm'].
  - simpl. rewrite sum_balances_empty. unfold MAX_UINT256. lia.
Qed.

(** X7.  With passive third parties, in every world reached from a fresh
    deployment the recorded balances sum to exactly [totalReceived], which
    fits in a [uint256]; so no recorded balance exceeds
    [totalReceived]. *)
Theorem X7_ledger_sums_to_totalReceived (w : World) :
  passive E ->
  reachable E w ->
  sum_balances (balances (rc w)) = totalReceived (rc w) /\
  totalReceived (rc w) <= MAX_UINT256 /\
  (forall a, getUserBalance w a <= totalReceived (rc w)).
Proof.
  intros Hpas Hreach.
  destruct (reachable_balanced w Hpas Hreach) as [Hsum Hmax].
  split_and!; try done.
  intros a. rewrite <- Hsum. unfold getUserBalance.
  pose proof (sum_balances_insert (balances (rc w)) a 0). lia.
Qed.

Lemma transferTo_bookkeeping_fits a b amt w :
  amt <= getUserBalance w a ->
  (if decide (a = b) then getUserBalance w a else getUserBalance w b + amt)
    <= MAX_UINT256 ->
  transferTo_bookkeeping a b amt w =
  Ok (set_balances
        (<[b := get (<[a := getUserBalance w a - amt]> (balances (rc w))) b + amt]>
           (<[a := getUserBalance w a - amt]> (balances (rc w)))) w).
Proof.
  intros Ha Hfit. unfold transferTo_bookkeeping.
  apply N.leb_le in Ha as Ha'. rewrite Ha'. simpl.
  rewrite checked_sub_ok by done. unfold getUserBalance in *. simpl.
  rewrite checked_add_ok; [done|].
  destruct (decide (a = b)) as [->|Hne].
  - rewrite get_insert_eq. lia.
  - by rewrite get_insert_ne.
Qed.

(** X8.  With passive third parties, in a world reached from a fresh
    deployment [transferTo] never fails on its arithmetic: it reverts with
    "Insufficient balance" when the sender's balance is short, and
    otherwise succeeds or reverts with "Transfer failed", according to the
    call to the recipient. *)
Theorem X8_transferTo_never_panics (a b : address) (amt : uint256) (w : World) :
  passive E ->
  reachable E w ->
  (getUserBalance w a < amt /\ transferTo E a b amt w = Revert Insufficient_balance) \/
  (amt <= getUserBalance w a /\
   (transferTo E a b amt w = Revert Transfer_failed \/
    exists w', transferTo E a b amt w = Ok w')).
Proof.
  intros Hpas Hreach.
  destruct (reachable_balanced w Hpas Hreach) as [Hsum Hmax].
  destruct (N.lt_ge_cases (getUserBalance w a) amt) as [Hlt|Hge].
  - left. split; [done|]. unfold transferTo.
    by rewrite transferTo_bookkeeping_short.
  - right. split; [done|]. unfold transferTo.
    rewrite transferTo_bookkeeping_fits; [simpl| done |].
    + destruct (call_empty E _ b 0 _) as [w2|]; [right; eauto|by left].
    + unfold getUserBalance in *. destruct (decide (a = b)) as [->|Hab].
      * pose proof (get_le_sum (balances (rc w)) b). lia.
      * pose proof (get2_le_sum (balances (rc w)) a b Hab). lia.
Qed.

(** X9.  With passive third parties no sequence of transactions lowers
    [totalReceived]. *)
Theorem X9_totalReceived_never_decreases (txs : list Tx) (w : World) :
  passive E ->
  totalReceived (rc w) <= totalReceived (rc (run E txs w)).
Proof.
  intros Hpas.
  apply (run_invariant (fun w' => totalReceived (rc w) <= totalReceived (rc w'))); [|lia].
  intros w1 tx Hw1. destruct (step_accounts tx w1 Hpas) as [->|Hp]; [done|].
  apply path_accounts in Hp as (_ & _ & _ & _ & Ht & _). lia.
Qed.

(** X10.  With passive third parties the ContractCaller never reassigns
    [receiverContract], and [totalTransfers] counts the successful calls
    of [callReceiverContract]: such a call adds exactly one, and no other
    transaction, nor a reverted one, changes it. *)
Theorem X10_ContractCaller_storage_changes (tx : Tx) (w : World) :
  passive E ->
  receiverContract (cc (step E w tx)) = receiverContract (cc w) /\
  (forall w', exec E tx w = Ok w' ->
     totalTransfers (cc w')
     = totalTransfers (cc w) + (if is_callReceiverContract tx then 1 else 0)) /\
  (forall e, exec E tx w = Revert e ->
     totalTransfers (cc (step E w tx)) = totalTransfers (cc w)) /\
  (forall wei0 deployer target txs,
     receiverContract (cc (run E txs (deployed wei0 deployer target))) = target).
Proof.
  intros Hpas. split_and!.
  - destruct (step_accounts tx w Hpas) as [->|Hp]; [done|].
    apply path_accounts in Hp as (Hk & _). apply Hk.
  - intros w' Hw'. apply exec_script in Hw'; [|done].
    apply path_accounts in Hw' as (_ & _ & _ & _ & _ & _ & Hn). rewrite Hn.
    f_equal. clear. by_script.
  - intros e He. unfold step. by rewrite He.
  - intros wei0 deployer target txs.
    apply (run_invariant (fun w => receiverContract (cc w) = target)); [|done].
    intros w1 tx1 Hw1. destruct (step_accounts tx1 w1 Hpas) as [->|Hp]; [done|].
    apply path_accounts in Hp as (Hk & _). destruct Hk as (_ & Hk & _). by rewrite Hk.
Qed.

(** X11.  With passive third parties nobody lowers another account's
    recorded balance: a transaction leaves the balance of every account
    other than its sender as it was or higher.  The one exception is the
    ContractCaller's own balance, which [triggerInternalTransfer] moves
    for whoever calls it. *)
Theorem X11_only_the_holder_debits (x : address) (tx : Tx) (w : World) :
  passive E ->
  x ≠ tx_sender tx ->
  x ≠ caller_addr E \/ is_triggerInternalTransfer tx = false ->
  getUserBalance w x <= getUserBalance (step E w tx) x.
Proof.
  intros Hpas Hx Hc. destruct (step_accounts tx w Hpas) as [->|Hp]; [done|].
  apply path_accounts in Hp as (_ & _ & Hb & _). specialize (Hb x).
  assert (tally (debit_of x) (script E tx w) = 0) as H0.
  { clear Hb Hpas. destruct Hc; by_script. }
  lia.
Qed.

(** X12.  With passive third parties value leaves the ReceiverContract
    through [transferWithValue] and [withdraw] only: no other transaction
    lowers the value it holds. *)
Theorem X12_value_leaves_by_two_functions_only (tx : Tx) (w : World) :
  passive E ->
  tx_sender tx ≠ receiver_addr E ->
  caller_addr E ≠ receiver_addr E ->
  sends_value_out tx = false ->
  getBalance E w <= getBalance E (step E w tx).
Proof.
  intros Hpas Hs Hcr Hout. destruct (step_accounts tx w Hpas) as [->|Hp]; [done|].
  apply path_accounts in Hp as (_ & Hw & _). specialize (Hw (receiver_addr E)).
  assert (tally (wei_out (receiver_addr E)) (script E tx w) = 0) as H0.
  { clear Hw Hpas. by_script. }
  unfold getBalance. lia.
Qed.

(** X13.  With passive third parties only [transferWithValue] and
    [withdraw] can leave the ledger uncovered: every other transaction
    keeps the recorded balances within the value held. *)
Theorem X13_coverage_broken_only_by_outflow (tx : Tx) (w : World) :
  passive E ->
  tx_sender tx ≠ receiver_addr E ->
  caller_addr E ≠ receiver_addr E ->
  sends_value_out tx = false ->
  covered E w -> covered E (step E w tx).
Proof.
  intros Hpas Hs Hcr Hout Hcov. destruct (step_accounts tx w Hpas) as [->|Hp]; [done|].
  apply path_accounts in Hp as (_ & Hw & _ & Hsum & _). specialize (Hw (receiver_addr E)).
  assert (tally deposit_of (script E tx w)
          + tally (wei_out (receiver_addr E)) (script E tx w)
          <= tally (wei_in (receiver_addr E)) (script E tx w)) as H0.
  { clear Hw Hsum Hcov Hpas. by_script. }
  unfold covered, getBalance in *. lia.
Qed.

(** X14.  With passive third parties the value the ContractCaller holds
    never goes down: what arrives through its [receive] stays there, and
    [callReceiverContract] forwards no more than it was sent. *)
Theorem X14_ContractCaller_value_is_locked (tx : Tx) (w : World) :
  passive E ->
  tx_sender tx ≠ caller_addr E ->
  caller_addr E ≠ receiver_addr E ->
  balance_of w (caller_addr E) <= balance_of (step E w tx) (caller_addr E).
Proof.
  intros Hpas Hs Hcr. destruct (step_accounts tx w Hpas) as [->|Hp]; [done|].
  apply path_accounts in Hp as (_ & Hw & _). specialize (Hw (caller_addr E)).
  assert (tally (wei_out (caller_addr E)) (script E tx w)
          <= tally (wei_in (caller_addr E)) (script E tx w)) as H0.
  { clear Hw Hpas. by_script. }
  lia.
Qed.

(** X15.  With passive third parties the event log is append-only: after
    any sequence of transactions the events emitted before are still
    there, in order, at the front. *)
Theorem X15_events_are_append_only (txs : list Tx) (w : World) :
  passive E ->
  exists l, events (run E txs w) = events w ++ l.
Proof.
  intros Hpas.
  apply (run_invariant (fun w' => exists l, events w' = events w ++ l)).
  - intros w1 tx [l Hl]. destruct (step_accounts tx w1 Hpas) as [->|Hp]; [by exists l|].
    apply path_accounts in Hp as ((_ & _ & l' & Hl') & _).
    exists (l ++ l'). by rewrite Hl', Hl, app_assoc.
  - exists []. by rewrite app_nil_r.
Qed.

(** ** Single functions *)

Lemma call_empty_accepted s b v w w1 :
  b ≠ receiver_addr E ->
  b = caller_addr E \/ accepts E b ->
  pay s b v w = Ok w1 ->
  call_empty E s b v w = Some w1.
Proof.
  intros Hb Hacc Hp. unfold call_empty. apply N.eqb_neq in Hb. rewrite Hb, Hp.
  destruct (N.eqb_spec b (caller_addr E)) as [Hc|Hc]; [done|].
  destruct Hacc as [|Hacc]; [done|]. apply Hacc.
Qed.

Lemma send_transfer_accepted s b v w w1 :
  b ≠ receiver_addr E ->
  b = caller_addr E \/ accepts_stipend E b ->
  pay s b v w = Ok w1 ->
  send_transfer E s b v w = Some w1.
Proof.
  intros Hb Hacc Hp. unfold send_transfer. apply N.eqb_neq in Hb. rewrite Hb, Hp.
  destruct (N.eqb_spec b (caller_addr E)) as [Hc|Hc]; [done|].
  destruct Hacc as [|Hacc]; [done|]. by rewrite Hacc.
Qed.

Lemma pay_exists src dst v w :
  v <= balance_of w src -> exists w1, pay src dst v w = Ok w1.
Proof. intros Hv. rewrite (pay_ok _ _ _ _ Hv). eauto. Qed.

(** X1.  The owner withdraws an amount the ReceiverContract holds; the
    payment is made with [address.transfer], which hands the owner's
    account no more than the 2300 gas stipend.  When the owner's account
    accepts a payment within the stipend (it has no code, or it is the
    ContractCaller with its empty [receive]), [withdraw] succeeds: the
    amount moves from the contract to the owner, no event is emitted, and
    the storage is untouched, so no recorded balance is debited; hence a
    withdrawal of more than the value held less the recorded balances
    leaves the ledger uncovered.  When the owner is a third party whose
    [receive] does not fit the stipend, [withdraw] reverts without a
    reason and nothing changes, whatever that code would do with more
    gas. *)
Theorem X1_withdraw_pays_the_owner (amt : uint256) (w : World) :
  owner (rc w) ≠ receiver_addr E ->
  amt <= getBalance E w ->
  (owner (rc w) = caller_addr E \/ accepts_stipend E (owner (rc w)) ->
   exists w',
     withdraw E (owner (rc w)) amt w = Ok w' /\
     step E w (Tx_withdraw (owner (rc w)) amt) = w' /\
     getBalance E w' = getBalance E w - amt /\
     balance_of w' (owner (rc w)) = balance_of w (owner (rc w)) + amt /\
     rc w' = rc w /\ cc w' = cc w /\ events w' = events w /\
     (getBalance E w - amt < sum_balances (balances (rc w)) -> ~ covered E w')) /\
  (owner (rc w) ≠ caller_addr E -> refuses_stipend E (owner (rc w)) ->
   withdraw E (owner (rc w)) amt w = Revert NoReason /\
   step E w (Tx_withdraw (owner (rc w)) amt) = w).
Proof.
  intros Ho Hamt.
  destruct (pay_exists (receiver_addr E) (owner (rc w)) amt w Hamt) as [w1 Hp].
  split.
  - intros Hacc.
    assert (withdraw E (owner (rc w)) amt w = Ok w1) as Hok.
    { unfold withdraw. rewrite N.eqb_refl. simpl.
      by rewrite (send_transfer_accepted _ _ _ _ w1). }
    exists w1. unfold step. simpl. rewrite Hok.
    pose proof (pay_does _ _ _ _ _ Hp) as (_ & _ & Hw & _).
    apply pay_inv in Hp as (_ & Hrc & Hcc & Hev & _).
    pose proof (Hw (receiver_addr E)) as HR. pose proof (Hw (owner (rc w))) as HO.
    unfold covered, getBalance in *. rewrite Hrc.
    split_and!; try done; repeat case_decide; try congruence; lia.
  - intros Hc Hrefuse.
    assert (withdraw E (owner (rc w)) amt w = Revert NoReason) as Hrev.
    { unfold withdraw. rewrite N.eqb_refl. simpl. unfold send_transfer.
      apply N.eqb_neq in Ho, Hc. by rewrite Ho, Hp, Hc, Hrefuse. }
    split; [exact Hrev|]. unfold step. simpl. by rewrite Hrev.
Qed.

(** X2.  [transferWithValue] asks neither for the owner nor for a
    recorded balance: for any sender that holds the value it sends along,
    any amount up to the value the contract then holds, and a recipient
    that accepts the payment, it succeeds; the contract ends with what it
    held plus the value sent less the amount, its storage is untouched,
    and the one event is [InternalTransferExecuted(ReceiverContract,
    recipient, amount)].  In particular a sender can pass its own value
    through a contract that holds nothing. *)
Theorem X2_transferWithValue_open_to_anyone
    (s : address) (v : uint256) (b : address) (amt : uint256) (w : World) :
  s ≠ receiver_addr E ->
  b ≠ receiver_addr E ->
  b = caller_addr E \/ accepts E b ->
  v <= balance_of w s ->
  amt <= getBalance E w + v ->
  exists w',
    transferWithValue E s v b amt w = Ok w' /\
    step E w (Tx_transferWithValue s v b amt) = w' /\
    getBalance E w' + amt = getBalance E w + v /\
    rc w' = rc w /\ cc w' = cc w /\
    events w' = events w ++ [InternalTransferExecuted (receiver_addr E) b amt].
Proof.
  intros Hs Hb Hacc Hv Hamt.
  destruct (pay_exists s (receiver_addr E) v w Hv) as [w1 Hp1].
  pose proof (pay_does _ _ _ _ _ Hp1) as (_ & _ & Hw1 & _).
  pose proof (Hw1 (receiver_addr E)) as HR1.
  assert (amt <= getBalance E w1) as Hamt1.
  { unfold getBalance in *. repeat case_decide; try congruence; lia. }
  destruct (pay_exists (receiver_addr E) b amt w1 Hamt1) as [w2 Hp2].
  pose proof (pay_does _ _ _ _ _ Hp2) as (_ & _ & Hw2 & _).
  pose proof (Hw2 (receiver_addr E)) as HR2.
  assert (transferWithValue E s v b amt w
          = Ok (emit (InternalTransferExecuted (receiver_addr E) b amt) w2)) as Hok.
  { unfold transferWithValue. rewrite Hp1. simpl.
    apply N.leb_le in Hamt1. rewrite Hamt1. simpl.
    by rewrite (call_empty_accepted _ _ _ _ w2). }
  eexists. unfold step. simpl. rewrite Hok. split; [done|]. split; [done|].
  apply pay_inv in Hp1 as (_ & Hrc1 & Hcc1 & Hev1 & _).
  apply pay_inv in Hp2 as (_ & Hrc2 & Hcc2 & Hev2 & _).
  unfold getBalance, balance_of in *. simpl.
  rewrite Hrc2, Hrc1, Hcc2, Hcc1, Hev2, Hev1. split_and!; try done.
  repeat case_decide; try congruence; lia.
Qed.

Lemma transferTo_accepted a b amt w :
  amt <= getUserBalance w a ->
  (if decide (a = b) then getUserBalance w a else getUserBalance w b + amt)
    <= MAX_UINT256 ->
  b ≠ receiver_addr E ->
  b = caller_addr E \/ accepts E b ->
  exists w',
    transferTo E a b amt w = Ok w' /\
    (forall x, getUserBalance w' x + (if decide (x = a) then amt else 0)
               = getUserBalance w x + (if decide (x = b) then amt else 0)) /\
    (forall x, balance_of w' x = balance_of w x) /\
    totalReceived (rc w') = totalReceived (rc w) /\
    owner (rc w') = owner (rc w) /\
    cc w' = cc w /\
    events w' = events w ++ [InternalTransferExecuted a b amt;
                             BalanceUpdated a (getUserBalance w' a);
                             BalanceUpdated b (getUserBalance w' b)].
Proof.
  intros Ha Hfit Hb Hacc.
  pose proof (transferTo_bookkeeping_fits a b amt w Ha Hfit) as Hbk.
  set (w1 := set_balances _ w) in Hbk.
  destruct (pay_exists (receiver_addr E) b 0 w1) as [w2 Hp]; [lia|].
  assert (transferTo E a b amt w = Ok (transferTo_emit a b amt w2)) as Hok.
  { unfold transferTo. rewrite Hbk. simpl.
    by rewrite (call_empty_accepted _ _ _ _ w2). }
  eexists. split; [exact Hok|].
  pose proof (pay_zero _ _ _ _ Hp) as Hwei.
  apply pay_inv in Hp as (_ & Hrc & Hcc & Hev & _).
  destruct (transferTo_emit_spec a b amt w2) as (Hrc' & Hwei' & Hcc' & Hev').
  unfold getUserBalance, balance_of in *.
  rewrite Hrc', Hwei', Hcc', Hev', Hrc, Hcc, Hev. subst w1. simpl.
  split_and!; try done.
  intros x. by apply moved_get.
Qed.

(** X3.  [triggerInternalTransfer] never looks at who calls it: it moves
    the recorded balance of the ContractCaller itself.  Pointing at the
    ReceiverContract, it reverts with "Insufficient balance" when the
    ContractCaller's balance is below the amount, whatever the caller's
    own balance; for a recipient that accepts the probe it debits the
    ContractCaller, credits the recipient and emits the three events of
    [transferTo] followed by [InternalTransfer(ReceiverContract,
    recipient, amount)]. *)
Theorem X3_triggerInternalTransfer_moves_the_callers_balance
    (s r : address) (amt : uint256) (w : World) :
  (forall s', triggerInternalTransfer E s' r amt w = triggerInternalTransfer E s r amt w) /\
  (receiverContract (cc w) = receiver_addr E ->
   (getUserBalance w (caller_addr E) < amt ->
    triggerInternalTransfer E s r amt w = Revert Insufficient_balance /\
    step E w (Tx_triggerInternalTransfer s r amt) = w) /\
   (amt <= getUserBalance w (caller_addr E) ->
    (if decide (caller_addr E = r) then getUserBalance w r
     else getUserBalance w r + amt) <= MAX_UINT256 ->
    r ≠ receiver_addr E ->
    r = caller_addr E \/ accepts E r ->
    exists w',
      triggerInternalTransfer E s r amt w = Ok w' /\
      (forall x, getUserBalance w' x + (if decide (x = caller_addr E) then amt else 0)
                 = getUserBalance w x + (if decide (x = r) then amt else 0)) /\
      getBalance E w' = getBalance E w /\
      events w' =
        events w ++ [InternalTransferExecuted (caller_addr E) r amt;
                     BalanceUpdated (caller_addr E) (getUserBalance w' (caller_addr E));
                     BalanceUpdated r (getUserBalance w' r);
                     InternalTransfer (receiver_addr E) r amt])).
Proof.
  split; [done|]. intros Ht.
  assert (triggerInternalTransfer E s r amt w
          = let* w2 := transferTo E (caller_addr E) r amt w in
            Ok (emit (InternalTransfer (receiverContract (cc w2)) r amt) w2)) as Hunf.
  { unfold triggerInternalTransfer, call_transferTo. by rewrite Ht, N.eqb_refl. }
  split.
  - intros Hlt. unfold step. simpl. rewrite Hunf. unfold transferTo.
    by rewrite transferTo_bookkeeping_short.
  - intros Ha Hfit Hr Hacc.
    destruct (transferTo_accepted (caller_addr E) r amt w Ha) as
      (w2 & Hok & Hbal & Hwei & _ & _ & Hcc & Hev); [|done..|].
    { by destruct (decide (caller_addr E = r)) as [<-|]. }
    eexists. rewrite Hunf, Hok. simpl. rewrite Hcc, Ht. split; [done|].
    unfold getBalance, balance_of, getUserBalance in *. simpl.
    rewrite Hev, <- app_assoc. by split_and!.
Qed.

(** X6.  [transferTo] has no guard against a transfer that moves
    nothing: with amount 0 (even from a sender without any balance) or
    with the sender as recipient it succeeds for a recipient that accepts
    the probe, leaves every recorded balance as it was, and still emits
    its three events. *)
Theorem X6_transfer_of_nothing (a b : address) (amt : uint256) (w : World) :
  amt = 0 \/ a = b ->
  amt <= getUserBalance w a ->
  getUserBalance w b <= MAX_UINT256 ->
  b ≠ receiver_addr E ->
  b = caller_addr E \/ accepts E b ->
  exists w',
    transferTo E a b amt w = Ok w' /\
    step E w (Tx_transferTo a b amt) = w' /\
    (forall x, getUserBalance w' x = getUserBalance w x) /\
    totalReceived (rc w') = totalReceived (rc w) /\
    events w' = events w ++ [InternalTransferExecuted a b amt;
                             BalanceUpdated a (getUserBalance w a);
                             BalanceUpdated b (getUserBalance w b)].
Proof.
  intros Hnil Ha Hfit Hb Hacc.
  destruct (transferTo_accepted a b amt w Ha) as
    (w' & Hok & Hbal & _ & Htot & _ & _ & Hev); [|done..|].
  { case_decide; destruct Hnil; subst; lia. }
  assert (forall x, getUserBalance w' x = getUserBalance w x) as Hsame.
  { intros x. specialize (Hbal x). destruct Hnil; subst; repeat case_decide; lia. }
  exists w'. unfold step. simpl. rewrite Hok.
  split_and!; try done. by rewrite Hev, !Hsame.
Qed.

(** X4.  A deposit followed by an internal transfer: after [s] deposits
    [n] and moves [m] of what it then has to [b], [s] has [n - m] more
    recorded, [b] has [m] more, every other balance is as before, and
    [totalReceived] and the value held have grown by [n]; the five events
    come in the order of the two calls. *)
Theorem X4_deposit_then_transfer (s b : address) (n m : uint256) (w : World) :
  0 < n ->
  s ≠ receiver_addr E -> b ≠ receiver_addr E -> s ≠ b ->
  b = caller_addr E \/ accepts E b ->
  n <= balance_of w s ->
  getUserBalance w s + n <= MAX_UINT256 ->
  totalReceived (rc w) + n <= MAX_UINT256 ->
  m <= getUserBalance w s + n ->
  getUserBalance w b + m <= MAX_UINT256 ->
  getUserBalance (run E [Tx_receiveFunds s n; Tx_transferTo s b m] w) s
    = getUserBalance w s + n - m /\
  getUserBalance (run E [Tx_receiveFunds s n; Tx_transferTo s b m] w) b
    = getUserBalance w b + m /\
  (forall x, x ≠ s -> x ≠ b ->
     getUserBalance (run E [Tx_receiveFunds s n; Tx_transferTo s b m] w) x
     = getUserBalance w x) /\
  totalReceived (rc (run E [Tx_receiveFunds s n; Tx_transferTo s b m] w))
    = totalReceived (rc w) + n /\
  getBalance E (run E [Tx_receiveFunds s n; Tx_transferTo s b m] w)
    = getBalance E w + n /\
  events (run E [Tx_receiveFunds s n; Tx_transferTo s b m] w)
    = events w ++ [FundsReceived s n;
                   BalanceUpdated s (getUserBalance w s + n);
                   InternalTransferExecuted s b m;
                   BalanceUpdated s (getUserBalance w s + n - m);
                   BalanceUpdated b (getUserBalance w b + m)].
Proof.
  intros Hn Hs Hb Hsb Hacc Hv Hfit Htot Hm Hfitb.
  destruct (receive_ok E s n w Hv Hfit Htot) as (w1 & Hw1 & Hcr).
  rewrite <- receiveFunds_receive in Hw1 by done.
  destruct Hcr as (Hbal1 & Htot1 & _ & _ & Hev1 & Hpool1).
  rewrite decide_False in Hpool1 by done.
  assert (getUserBalance w1 s = getUserBalance w s + n) as H1s.
  { unfold getUserBalance. rewrite Hbal1. apply get_insert_eq. }
  assert (forall x, x ≠ s -> getUserBalance w1 x = getUserBalance w x) as H1x.
  { intros x Hx. unfold getUserBalance. rewrite Hbal1. by apply get_insert_ne. }
  destruct (transferTo_accepted s b m w1) as
    (w2 & Hw2 & Hbal2 & Hwei2 & Htot2 & _ & _ & Hev2); [lia| |done..|].
  { rewrite decide_False by done. rewrite H1x by done. lia. }
  rewrite !run_cons. unfold run. simpl. unfold step. simpl. rewrite Hw1, Hw2.
  pose proof (Hbal2 s) as H2s. pose proof (Hbal2 b) as H2b.
  rewrite decide_True, decide_False in H2s by done.
  rewrite decide_False, decide_True in H2b by done.
  rewrite H1s in H2s. rewrite H1x in H2b by done.
  assert (getUserBalance w2 s = getUserBalance w s + n - m) as Es by lia.
  assert (getUserBalance w2 b = getUserBalance w b + m) as Eb by lia.
  split_and!; try done.
  - intros x Hxs Hxb. specialize (Hbal2 x).
    rewrite !decide_False in Hbal2 by done. rewrite H1x in Hbal2 by done. lia.
  - by rewrite Htot2.
  - unfold getBalance in *. by rewrite Hwei2.
  - by rewrite Hev2, Hev1, Es, Eb, <- app_assoc.
Qed.

(** X5.  A transfer and the transfer back undo each other on the ledger:
    after [a] moves an amount to [b] and [b] moves it back, every recorded
    balance, [totalReceived] and the value held are as before; only the
    six events remain. *)
Theorem X5_transfer_there_and_back (a b : address) (amt : uint256) (w : World) :
  a ≠ b -> a ≠ receiver_addr E -> b ≠ receiver_addr E ->
  a = caller_addr E \/ accepts E a ->
  b = caller_addr E \/ accepts E b ->
  amt <= getUserBalance w a ->
  getUserBalance w a <= MAX_UINT256 ->
  getUserBalance w b + amt <= MAX_UINT256 ->
  (forall x, getUserBalance (run E [Tx_transferTo a b amt; Tx_transferTo b a amt] w) x
             = getUserBalance w x) /\
  totalReceived (rc (run E [Tx_transferTo a b amt; Tx_transferTo b a amt] w))
    = totalReceived (rc w) /\
  getBalance E (run E [Tx_transferTo a b amt; Tx_transferTo b a amt] w)
    = getBalance E w /\
  events (run E [Tx_transferTo a b amt; Tx_transferTo b a amt] w)
    = events w ++ [InternalTransferExecuted a b amt;
                   BalanceUpdated a (getUserBalance w a - amt);
                   BalanceUpdated b (getUserBalance w b + amt);
                   InternalTransferExecuted b a amt;
                   BalanceUpdated b (getUserBalance w b);
                   BalanceUpdated a (getUserBalance w a)].
Proof.
  intros Hab Ha Hb Hacca Haccb Hamt Hfita Hfitb.
  destruct (transferTo_accepted a b amt w Hamt) as
    (w1 & Hw1 & Hbal1 & Hwei1 & Htot1 & _ & _ & Hev1); [|done..|].
  { by rewrite decide_False. }
  pose proof (Hbal1 a) as H1a. pose proof (Hbal1 b) as H1b.
  rewrite decide_True, decide_False in H1a by done.
  rewrite decide_False, decide_True in H1b by done.
  destruct (transferTo_accepted b a amt w1) as
    (w2 & Hw2 & Hbal2 & Hwei2 & Htot2 & _ & _ & Hev2); [lia| |done..|].
  { rewrite decide_False by done. lia. }
  rewrite !run_cons. unfold run. simpl. unfold step. simpl. rewrite Hw1, Hw2.
  assert (forall x, getUserBalance w2 x = getUserBalance w x) as Hsame.
  { intros x. specialize (Hbal1 x). specialize (Hbal2 x).
    repeat case_decide; subst; try done; lia. }
  split_and!; try done.
  - by rewrite Htot2.
  - unfold getBalance in *. by rewrite Hwei2.
  - rewrite Hev2, Hev1, !Hsame, <- app_assoc. simpl.
    replace (getUserBalance w1 a) with (getUserBalance w a - amt) by lia.
    replace (getUserBalance w1 b) with (getUserBalance w b + amt) by lia. done.
Qed.

(** X16.  Beyond the range of [uint256] a deposit is refused: when the
    sender's recorded balance or [totalReceived] would exceed the largest
    [uint256], both [receive] and [receiveFunds] revert with the
    arithmetic panic, and the world is as it was. *)
Theorem X16_deposit_overflow_reverts (s : address) (v : uint256) (w : World) :
  0 < v ->
  v <= balance_of w s ->
  MAX_UINT256 < getUserBalance w s + v \/ MAX_UINT256 < totalReceived (rc w) + v ->
  receiveFunds E s v w = Revert Panic_arithmetic /\
  receive E s v w = Revert Panic_arithmetic /\
  step E w (Tx_receiveFunds s v) = w /\
  step E w (Tx_receive s v) = w.
Proof.
  intros Hpos Hv Hover.
  pose proof (receiveFunds_overflow E s v w Hpos Hv Hover) as Hrev.
  pose proof Hrev as Hrev'. rewrite receiveFunds_receive in Hrev' by done.
  unfold step. simpl. by rewrite Hrev, Hrev'.
Qed.

(** X17.  [getReceiverBalance] reads the value the ReceiverContract holds,
    so it follows the deposits forwarded: after a successful
    [callReceiverContract] with value [n] it returns [n] more than
    before. *)
Theorem X17_getReceiverBalance_follows_deposits
    (view : address -> World -> Result uint256)
    (s : address) (n : uint256) (w w' : World) :
  receiverContract (cc w) = receiver_addr E ->
  caller_addr E ≠ receiver_addr E ->
  s ≠ receiver_addr E ->
  callReceiverContract E s n w = Ok w' ->
  getReceiverBalance E view w = Ok (getBalance E w) /\
  getReceiverBalance E view w' = Ok (getBalance E w + n).
Proof.
  intros Ht Hcr Hs. unfold getReceiverBalance. rewrite Ht, N.eqb_refl.
  split; [done|]. revert H. unfold callReceiverContract.
  destruct (pay s (caller_addr E) n w) as [w1|] eqn:Hp; [|done]. simpl.
  apply pay_inv in Hp as (_ & _ & Hcc & _ & _ & Hoth).
  destruct (require _ _); [|done]. simpl. rewrite Hcc.
  unfold call_receiveFunds. rewrite Ht, N.eqb_refl.
  destruct (receiveFunds E (caller_addr E) n w1) as [w2|] eqn:Hr; [|done]. simpl.
  apply receiveFunds_inv in Hr as (_ & _ & Hcred).
  destruct Hcred as (_ & _ & _ & Hcc2 & _ & Hpool).
  rewrite decide_False in Hpool by done.
  destruct (checked_add _ 1) as [k|]; [|done]. simpl. intros [= <-]. simpl.
  rewrite Hcc2, Hcc, Ht, N.eqb_refl. f_equal.
  change (getBalance E (emit (ContractCallMade s (receiver_addr E) n)
                             (set_totalTransfers k w2)))
    with (getBalance E w2).
  rewrite Hpool. f_equal. unfold getBalance. apply Hoth; congruence.
Qed.

End Further.

(** ** deploy_contracts.js: compiler diagnostics *)

Lemma fold_report_diagnostic (errs : list Diagnostic) (lines : list string) (flag : bool) :
  fold_left report_diagnostic errs (lines, flag)
  = (lines ++ map formattedMessage errs,
     flag || existsb (fun d => String.eqb (severity d) "error") errs).
Proof.
  revert lines flag. induction errs as [|d errs IH]; intros lines flag; simpl.
  - by rewrite app_nil_r, orb_false_r.
  - change (report_diagnostic (lines, flag) d)
      with (lines ++ [formattedMessage d],
            if String.eqb (severity d) "error" then true else flag).
    rewrite IH, <- app_assoc. simpl.
    by destruct (String.eqb (severity d) "error"), flag.
Qed.

(** X18.  The deployment script writes every compiler diagnostic to
    [console.error], in order, warnings included, and throws "Compilation
    failed due to errors above." exactly when at least one diagnostic has
    severity [error]; a missing or empty list writes nothing and does not
    throw. *)
Theorem X18_compiler_errors_stop_the_deployment (errors : option (list Diagnostic)) :
  fst (handle_compiler_errors errors) = map formattedMessage (default [] errors) /\
  (snd (handle_compiler_errors errors) = Some "Compilation failed due to errors above."%string
   <-> exists d, d ∈ default [] errors /\ severity d = "error"%string) /\
  (snd (handle_compiler_errors errors) = None
   <-> forall d, d ∈ default [] errors -> severity d ≠ "error"%string).
Proof.
  assert (forall errs : list Diagnostic,
            existsb (fun d => String.eqb (severity d) "error") errs = true
            <-> exists d, d ∈ errs /\ severity d = "error"%string) as Hex.
  { intros errs. rewrite existsb_exists. split.
    - intros (d & Hin & Hd). exists d. split; [by apply list_elem_of_In|].
      by apply String.eqb_eq.
    - intros (d & Hin & Hd). exists d. split; [by apply list_elem_of_In|].
      by apply String.eqb_eq. }
  destruct errors as [errs|]; simpl.
  - destruct errs as [|d0 errs]; [simpl|].
    + split_and!; try done.
      * split; [done|]. intros (d & Hd & _). by apply elem_of_nil in Hd.
      * split; [|done]. intros _ d Hd. by apply elem_of_nil in Hd.
    + change (0 <? length (d0 :: errs))%nat with true. cbv iota.
      rewrite fold_report_diagnostic. cbn [fst snd orb app].
      specialize (Hex (d0 :: errs)).
      destruct (existsb _ (d0 :: errs)) eqn:Hb.
      * split_and!; try done.
        -- split; [intros _; by apply Hex|done].
        -- split; [done|]. intros Hall. apply proj1 in Hex.
           destruct (Hex eq_refl) as (d & Hd & Hsev). by apply Hall in Hd.
      * split_and!; try done.
        -- split; [done|]. intros Hd. apply Hex in Hd. done.
        -- split; [|done]. intros _ d Hd Hsev.
           assert (false = true) by (apply Hex; eauto). done.
  - split_and!; try done.
    + split; [done|]. intros (d & Hd & _). by apply elem_of_nil in Hd.
    + split; [|done]. intros _ d Hd. by apply elem_of_nil in Hd.
Qed.


(** * The contracts on concrete inputs

    The ReceiverContract is at address 100 and the ContractCaller at 200;
    in [sample_world] account 1 has a recorded balance of 100 and the
    ReceiverContract holds 100. *)

Lemma no_code_no_callback (b : address) : no_callback sample_env b.
Proof. intros sender v w w' H. simpl in H. unfold no_code in H. congruence. Qed.

Lemma no_code_keeps_owner : extern_keeps_owner sample_env.
Proof.
  intros callee sender v data w w' H. simpl in H. unfold no_code in H.
  destruct data; congruence.
Qed.

(** Three deposits, the last one refused, keep the ledger covered. *)
Lemma C1_witness :
  forallb (is_deposit sample_env) [Tx_receiveFunds 1 5; Tx_receive 2 7; Tx_receiveFunds 1 0] = true /\
  sum_balances
    (balances (rc (run sample_env
                     (take 3 [Tx_receiveFunds 1 5; Tx_receive 2 7; Tx_receiveFunds 1 0])
                     (deployed (wei sample_world) 9 100))))
  <= getBalance sample_env
       (run sample_env
          (take 3 [Tx_receiveFunds 1 5; Tx_receive 2 7; Tx_receiveFunds 1 0])
          (deployed (wei sample_world) 9 100)).
Proof.
  split; [reflexivity|].
  apply (C1_deposits_keep_ledger_covered sample_env (wei sample_world) 9 100
           [Tx_receiveFunds 1 5; Tx_receive 2 7; Tx_receiveFunds 1 0] 3).
  reflexivity.
Defined.

(** Account 1 deposits 5 on top of its 100. *)
Lemma C2_witness :
  exists w',
    receiveFunds sample_env 1 5 sample_world = Ok w' /\
    getUserBalance w' 1 = 105 /\
    totalReceived (rc w') = 105 /\
    getBalance sample_env w' = 105 /\
    events w' = [FundsReceived 1 5; BalanceUpdated 1 105].
Proof.
  destruct (proj2 (C2_receiveFunds_credits_exactly sample_env 1 5 sample_world))
    as (w' & Hok & _ & Hbal & _ & Htot & Hpool & Hev);
    [holds | holds | holds | holds | holds |].
  exists w'. rewrite Hev, Hbal, Htot, Hpool. split; [exact Hok|].
  repeat split; holds.
Defined.

(** C3, as stated, fails when the call to the recipient runs code that
    touches the ledger.  First, the recipient is the ReceiverContract
    itself: the zero-value call reaches its own [receive], which emits
    [FundsReceived] and a third [BalanceUpdated], ahead of the others.
    Second, the recipient is a contract that calls back: account 2 hands
    the 40 on to account 3 before [transferTo] returns, so the balances of
    sender and recipient sum to 60 instead of 100 and six events are
    emitted. *)
Lemma C3_counterexample_recipient_runs_code :
  40 <= getUserBalance sample_world 1 /\
  (exists w',
     transferTo sample_env 1 100 40 sample_world = Ok w' /\
     emitted sample_world w' =
       [FundsReceived 100 0; BalanceUpdated 100 40;
        InternalTransferExecuted 1 100 40;
        BalanceUpdated 1 60; BalanceUpdated 100 40] /\
     count_events is_BalanceUpdated (emitted sample_world w') <> 2%nat) /\
  (exists w',
     transferTo passing_env 1 2 40 sample_world = Ok w' /\
     getUserBalance sample_world 1 + getUserBalance sample_world 2 = 100 /\
     getUserBalance w' 1 + getUserBalance w' 2 = 60 /\
     emitted sample_world w' =
       [InternalTransferExecuted 2 3 40; BalanceUpdated 2 0; BalanceUpdated 3 40;
        InternalTransferExecuted 1 2 40; BalanceUpdated 1 60; BalanceUpdated 2 0] /\
     count_events is_InternalTransferExecuted (emitted sample_world w') <> 1%nat).
Proof.
  split; [vm_compute; discriminate|]. split.
  - eexists. split; [vm_compute; reflexivity|].
    split; vm_compute; [reflexivity|discriminate].
  - eexists. split; [vm_compute; reflexivity|].
    repeat split; vm_compute; [reflexivity..|discriminate].
Qed.

(** Account 1 moves 40 of its 100 to account 2. *)
Lemma C3_witness :
  exists w',
    transferTo sample_env 1 2 40 sample_world = Ok w' /\
    getUserBalance w' 1 = 60 /\
    getUserBalance w' 2 = 40 /\
    emitted sample_world w' =
      [InternalTransferExecuted 1 2 40; BalanceUpdated 1 60; BalanceUpdated 2 40].
Proof.
  destruct (transferTo sample_env 1 2 40 sample_world) as [w'|] eqn:Hok;
    [|vm_compute in Hok; discriminate].
  destruct (C3_transferTo_conserves_and_emits sample_env 1 2 40 sample_world w')
    as (_ & _ & Hmv & _ & _ & _ & _ & Hev & _);
    [holds | right; apply no_code_no_callback | exact Hok |].
  destruct Hmv as [H1 H2]; [holds|].
  exists w'. rewrite Hev, H1, H2. repeat split; holds.
Defined.

(** Account 2 has no recorded balance. *)
Lemma C4_witness :
  getUserBalance sample_world 2 < 40 /\
  transferTo sample_env 2 1 40 sample_world = Revert Insufficient_balance /\
  step sample_env sample_world (Tx_transferTo 2 1 40) = sample_world.
Proof.
  split; [holds|].
  apply (C4_transferTo_insufficient_balance sample_env 2 1 40 sample_world).
  holds.
Defined.

(** C5, as stated, fails: account 2 is a contract that refuses plain calls
    while its recorded balance is zero.  Called in the world the transfer
    starts from it refuses; yet the transfer to it succeeds, because the
    call is made after the 40 have been credited. *)
Lemma C5_counterexample_probe_sees_the_credit :
  call_empty gated_env 100 2 0 sample_world = None /\
  (exists w', transferTo gated_env 1 2 40 sample_world = Ok w' /\
              getUserBalance w' 2 = 40) /\
  ~ probe_before_bookkeeping gated_env 1 2 40 sample_world.
Proof.
  split; [vm_compute; reflexivity|]. split.
  - eexists. split; vm_compute; reflexivity.
  - intros H. unfold probe_before_bookkeeping in H.
    assert (transferTo gated_env 1 2 40 sample_world = Revert Transfer_failed)
      as Hrev.
    { apply H; [vm_compute; discriminate | vm_compute; reflexivity]. }
    vm_compute in Hrev. discriminate.
Qed.

(** The same transfer, seen step by step. *)
Lemma C5_witness :
  exists w1,
    transferTo_bookkeeping 1 2 40 sample_world = Ok w1 /\
    getUserBalance w1 1 = 60 /\ getUserBalance w1 2 = 40 /\
    events w1 = events sample_world.
Proof.
  destruct (C5_transferTo_writes_then_calls_then_emits gated_env 1 2 40
              sample_world)
    as (w1 & Hbk & Hev & _ & _ & Hmv & _); [holds | holds |].
  destruct Hmv as [H1 H2]; [holds|].
  exists w1. rewrite H1, H2. repeat split; [exact Hbk | exact Hev].
Defined.

(** C6.  The implicit receive path does not behave as a deposit when
    account 1 sends a plain transfer of no value to the ReceiverContract.
    The two explicit deposit paths refuse a zero value, [receiveFunds]
    with "No funds sent" (line 59) and [callReceiverContract] with "Must
    send some ETH" (line 23); [receive] (lines 94-99) has no such guard,
    goes through and emits [FundsReceived(1, 0)] and
    [BalanceUpdated(1, 100)]. *)
Lemma C6_receive_takes_a_deposit_of_nothing :
  receiveFunds sample_env 1 0 sample_world = Revert No_funds_sent /\
  callReceiverContract sample_env 1 0 sample_world = Revert Must_send_some_ETH /\
  (exists w', receive sample_env 1 0 sample_world = Ok w' /\
              emitted sample_world w' = [FundsReceived 1 0; BalanceUpdated 1 100]) /\
  receive sample_env 1 0 sample_world <> receiveFunds sample_env 1 0 sample_world /\
  step sample_env sample_world (Tx_receiveFunds 1 0) = sample_world /\
  step sample_env sample_world (Tx_receive 1 0) <> sample_world.
Proof.
  split; [vm_compute; reflexivity|].
  split; [vm_compute; reflexivity|].
  split; [|split; [|split]].
  - eexists. split; vm_compute; reflexivity.
  - vm_compute. discriminate.
  - vm_compute. reflexivity.
  - vm_compute. discriminate.
Qed.

(** Account 1 sends 5, and then nothing, by either path. *)
Lemma receive_against_receiveFunds_sample :
  receive sample_env 1 5 sample_world = receiveFunds sample_env 1 5 sample_world /\
  exists w', receive sample_env 1 0 sample_world = Ok w'.
Proof.
  destruct (receive_against_receiveFunds sample_env 1 5
              sample_world) as [Hpos _].
  destruct (receive_against_receiveFunds sample_env 1 0
              sample_world) as [_ Hzero].
  split.
  - apply Hpos. holds.
  - destruct Hzero as (_ & w' & Hok & _); [holds | holds |].
    exists w'. exact Hok.
Defined.

(** Account 1 is not the owner (9) of [sample_world]; after the deployer 9
    deployed and account 1 deposited, 9 is still the owner. *)
Lemma C7_witness :
  withdraw sample_env 1 10 sample_world = Revert Only_owner_can_withdraw /\
  step sample_env sample_world (Tx_withdraw 1 10) = sample_world /\
  owner (rc (run sample_env [Tx_receiveFunds 1 5]
               (deployed (wei sample_world) 9 100))) = 9.
Proof.
  destruct (C7_withdraw_only_by_owner sample_env 1 10 sample_world)
    as (Hno & _ & Hown).
  destruct Hno as [H1 H2]; [holds|].
  split; [exact H1|]. split; [exact H2|].
  apply Hown. apply no_code_keeps_owner.
Defined.

(** Account 1 sends 50 through the ContractCaller. *)
Lemma C8_witness :
  exists w',
    callReceiverContract sample_env 1 50 sample_world = Ok w' /\
    getBalance sample_env w' = 150 /\
    getUserBalance w' 200 = 50 /\
    getUserBalance w' 1 = 100 /\
    totalTransfers (cc w') = 1 /\
    events w' =
      [FundsReceived 200 50; BalanceUpdated 200 50; ContractCallMade 1 100 50].
Proof.
  destruct (pay 1 200 50 sample_world) as [w1|] eqn:Hp; [|vm_compute in Hp; discriminate].
  destruct (proj2 (C8_callReceiverContract_forwards sample_env 1 50 sample_world)
              eq_refl eq_refl w1 Hp) as [_ Hok].
  destruct Hok as (w' & Hok & _ & Hpool & Hbal & Hoth & _ & Hcnt & _ & Hev);
    [holds | holds | holds | holds | holds |].
  change (caller_addr sample_env) with 200 in *.
  change (receiver_addr sample_env) with 100 in *.
  exists w'. rewrite Hev, Hbal, Hpool, Hcnt, (Hoth 1) by holds.
  split; [exact Hok|]. repeat split; holds.
Defined.

(** C9, as stated, fails when the call to the recipient runs code that
    touches the ledger.  First, the recipient is the ReceiverContract
    itself: the value goes from the contract to itself, so none leaves,
    and its own [receive] records a balance of 5 for the contract and adds
    5 to [totalReceived]; the recorded balances then exceed the value
    held.  Second, the recipient is a contract that calls back: account 2
    deposits the 30 it is sent, so its recorded balance and
    [totalReceived] grow by 30 and the value held is back at 100. *)
Lemma C9_counterexample_recipient_runs_code :
  getUserBalance sample_world 100 = 0 /\ getUserBalance sample_world 2 = 0 /\
  totalReceived (rc sample_world) = 100 /\ getBalance sample_env sample_world = 100 /\
  (exists w',
     transferWithValue sample_env 1 0 100 5 sample_world = Ok w' /\
     getUserBalance w' 100 = 5 /\
     totalReceived (rc w') = 105 /\
     getBalance sample_env w' = 100 /\
     sum_balances (balances (rc w')) = 105 /\
     balances (rc w') <> balances (rc sample_world) /\
     emitted sample_world w' =
       [FundsReceived 100 5; BalanceUpdated 100 5;
        InternalTransferExecuted 100 100 5]) /\
  (exists w',
     transferWithValue redepositing_env 1 0 2 30 sample_world = Ok w' /\
     getUserBalance w' 2 = 30 /\
     totalReceived (rc w') = 130 /\
     getBalance redepositing_env w' = 100 /\
     balances (rc w') <> balances (rc sample_world) /\
     emitted sample_world w' =
       [FundsReceived 2 30; BalanceUpdated 2 30;
        InternalTransferExecuted 100 2 30]).
Proof.
  do 4 (split; [vm_compute; reflexivity|]). split.
  - eexists. split; [vm_compute; reflexivity|].
    repeat split; try (vm_compute; reflexivity).
    intros H. apply (f_equal (fun m => get m 100)) in H. vm_compute in H. discriminate.
  - eexists. split; [vm_compute; reflexivity|].
    repeat split; try (vm_compute; reflexivity).
    intros H. apply (f_equal (fun m => get m 2)) in H. vm_compute in H. discriminate.
Qed.

(** The contract sends 30 of its 100 to account 2. *)
Lemma C9_witness :
  exists w',
    transferWithValue sample_env 1 0 2 30 sample_world = Ok w' /\
    getBalance sample_env w' = 70 /\
    balance_of w' 2 = 530 /\
    rc w' = rc sample_world /\
    emitted sample_world w' = [InternalTransferExecuted 100 2 30].
Proof.
  destruct (transferWithValue sample_env 1 0 2 30 sample_world) as [w'|] eqn:Hok;
    [|vm_compute in Hok; discriminate].
  destruct (proj2 (C9_transferWithValue_frame sample_env 1 0 2 30 sample_world))
    with (w' := w') as (w1 & Hp & _ & _ & Hpool & Hdst & Hrc & _ & Hev & _);
    [holds | right; apply no_code_no_callback | exact Hok |].
  exists w'. rewrite Hpool, Hdst. vm_compute in Hp. injection Hp as <-.
  split; [reflexivity|]. split; [holds|].
  split; [holds|]. split; [exact Hrc | exact Hev].
Defined.

(** The owner 9 asks for 101 of the 100 held. *)
Lemma C10_witness :
  getBalance sample_env sample_world < 101 /\
  withdraw sample_env (owner (rc sample_world)) 101 sample_world = Revert NoReason /\
  step sample_env sample_world (Tx_withdraw (owner (rc sample_world)) 101)
  = sample_world.
Proof.
  split; [holds|].
  apply (C10_withdraw_beyond_pool sample_env 101 sample_world).
  holds.
Defined.

(** * The further properties on concrete inputs *)

Lemma no_code_passive : passive sample_env.
Proof.
  intros callee sender v data w w' H. simpl in H. unfold no_code in H.
  destruct data; congruence.
Qed.

Lemma no_code_accepts (b : address) : accepts sample_env b.
Proof. intros sender v w. reflexivity. Qed.

Lemma sample_reachable (txs : list Tx) :
  reachable sample_env (run sample_env txs (deployed (wei sample_world) 9 100)).
Proof. by exists (wei sample_world), 9, 100, txs. Qed.

Lemma no_code_accepts_stipend (b : address) : accepts_stipend sample_env b.
Proof. by intros sender v w. Qed.

Lemma calls_back_refuses_stipend : refuses_stipend redepositing_env 2.
Proof. by intros sender v w. Qed.

(** The owner 9, an account without code, withdraws 30 of the 100 held.
    Where the owner is account 2, whose [receive] deposits what it gets,
    the same withdrawal reverts: the deposit does not fit the stipend. *)
Lemma X1_witness :
  (exists w',
     withdraw sample_env 9 30 sample_world = Ok w' /\
     getBalance sample_env w' = 70 /\
     balance_of w' 9 = 30 /\
     rc w' = rc sample_world /\
     events w' = []) /\
  withdraw redepositing_env 2 30 owner2_world = Revert NoReason /\
  step redepositing_env owner2_world (Tx_withdraw 2 30) = owner2_world.
Proof.
  split.
  - destruct (X1_withdraw_pays_the_owner sample_env 30 sample_world)
      as [Hpaid _]; [holds | holds |].
    destruct Hpaid as (w' & Hok & _ & Hpool & Hown & Hrc & _ & Hev & _);
      [right; apply no_code_accepts_stipend|].
    change (owner (rc sample_world)) with 9 in *.
    exists w'. rewrite Hpool, Hown, Hev. split; [exact Hok|].
    split; [holds|]. split; [holds|]. split; [exact Hrc|holds].
  - destruct (X1_withdraw_pays_the_owner redepositing_env 30 owner2_world)
      as [_ Hrefused]; [holds | holds |].
    apply Hrefused; [holds | apply calls_back_refuses_stipend].
Defined.

(** Account 2, which has no recorded balance, sends 10 along and has 110
    paid to account 1: the contract is left with nothing. *)
Lemma X2_witness :
  getUserBalance sample_world 2 = 0 /\
  exists w',
    transferWithValue sample_env 2 10 1 110 sample_world = Ok w' /\
    getBalance sample_env w' + 110 = 110 /\
    rc w' = rc sample_world.
Proof.
  split; [holds|].
  destruct (X2_transferWithValue_open_to_anyone sample_env 2 10 1 110 sample_world)
    as (w' & Hok & _ & Hpool & Hrc & _);
    [holds | holds | right; apply no_code_accepts | holds | holds |].
  exists w'. rewrite Hpool. split; [exact Hok|]. split; [holds|exact Hrc].
Defined.

(** Account 1 triggers a transfer of 20 of the ContractCaller's 50 to
    account 2; asking for 60 fails. *)
Lemma X3_witness :
  triggerInternalTransfer sample_env 1 2 60 relay_world = Revert Insufficient_balance /\
  exists w',
    triggerInternalTransfer sample_env 1 2 20 relay_world = Ok w' /\
    getUserBalance w' 200 + 20 = 50 /\
    getUserBalance w' 2 = 20 /\
    getUserBalance w' 1 = 0.
Proof.
  destruct (X3_triggerInternalTransfer_moves_the_callers_balance sample_env 1 2 60
              relay_world) as [_ Hshort].
  destruct (X3_triggerInternalTransfer_moves_the_callers_balance sample_env 1 2 20
              relay_world) as [_ Hok].
  split.
  - apply Hshort; holds.
  - destruct (proj2 (Hok eq_refl)) as (w' & Hw' & Hbal & _);
      [holds | holds | holds | right; apply no_code_accepts |].
    exists w'. split; [exact Hw'|].
    pose proof (Hbal 200) as H200. pose proof (Hbal 2) as H2. pose proof (Hbal 1) as H1.
    change (caller_addr sample_env) with 200 in *.
    change (getUserBalance relay_world 200) with 50 in *.
    change (getUserBalance relay_world 2) with 0 in *.
    change (getUserBalance relay_world 1) with 0 in *.
    rewrite decide_True, decide_False in H200 by lia.
    rewrite decide_False, decide_True in H2 by lia.
    rewrite !decide_False in H1 by lia.
    split; [lia|]. split; lia.
Defined.

(** Account 2 deposits 100 and moves 40 of it to account 3. *)
Lemma X4_witness :
  getUserBalance (run sample_env [Tx_receiveFunds 2 100; Tx_transferTo 2 3 40] sample_world) 2
    = 60 /\
  getUserBalance (run sample_env [Tx_receiveFunds 2 100; Tx_transferTo 2 3 40] sample_world) 3
    = 40 /\
  getBalance sample_env
    (run sample_env [Tx_receiveFunds 2 100; Tx_transferTo 2 3 40] sample_world) = 200.
Proof.
  destruct (X4_deposit_then_transfer sample_env 2 3 100 40 sample_world)
    as (Hs & Hb & _ & _ & Hpool & _);
    [holds | holds | holds | holds | right; apply no_code_accepts
    | holds | holds | holds | holds | holds |].
  rewrite Hs, Hb, Hpool. split; [holds|]. split; holds.
Defined.

(** Account 1 moves 40 to account 2 and gets them back. *)
Lemma X5_witness :
  (forall x,
     getUserBalance (run sample_env [Tx_transferTo 1 2 40; Tx_transferTo 2 1 40] sample_world) x
     = getUserBalance sample_world x) /\
  length (events (run sample_env [Tx_transferTo 1 2 40; Tx_transferTo 2 1 40] sample_world))
  = 6%nat.
Proof.
  destruct (X5_transfer_there_and_back sample_env 1 2 40 sample_world)
    as (Hbal & _ & _ & Hev);
    [holds | holds | holds | right; apply no_code_accepts | right; apply no_code_accepts
    | holds | holds | holds |].
  split; [exact Hbal|]. rewrite Hev. reflexivity.
Defined.

(** Account 2, without any balance, transfers 0 to account 1. *)
Lemma X6_witness :
  getUserBalance sample_world 2 = 0 /\
  exists w',
    transferTo sample_env 2 1 0 sample_world = Ok w' /\
    (forall x, getUserBalance w' x = getUserBalance sample_world x) /\
    events w' = [InternalTransferExecuted 2 1 0; BalanceUpdated 2 0; BalanceUpdated 1 100].
Proof.
  split; [holds|].
  destruct (X6_transfer_of_nothing sample_env 2 1 0 sample_world)
    as (w' & Hok & _ & Hbal & _ & Hev);
    [by left | holds | holds | holds | right; apply no_code_accepts |].
  exists w'. split; [exact Hok|]. split; [exact Hbal|exact Hev].
Defined.

(** After a deposit of 5 and a transfer of 3 the two recorded balances sum
    to the 5 received. *)
Lemma X7_witness :
  sum_balances
    (balances (rc (run sample_env [Tx_receiveFunds 1 5; Tx_transferTo 1 2 3]
                     (deployed (wei sample_world) 9 100))))
  = totalReceived
      (rc (run sample_env [Tx_receiveFunds 1 5; Tx_transferTo 1 2 3]
             (deployed (wei sample_world) 9 100))).
Proof.
  apply (X7_ledger_sums_to_totalReceived sample_env
           (run sample_env [Tx_receiveFunds 1 5; Tx_transferTo 1 2 3]
              (deployed (wei sample_world) 9 100))).
  - apply no_code_passive.
  - apply sample_reachable.
Defined.

(** After a deposit of 5, a transfer of 50 is short and one of 3 is
    not. *)
Lemma X8_witness :
  transferTo sample_env 1 2 50
    (run sample_env [Tx_receiveFunds 1 5] (deployed (wei sample_world) 9 100))
  = Revert Insufficient_balance /\
  exists w',
    transferTo sample_env 1 2 3
      (run sample_env [Tx_receiveFunds 1 5] (deployed (wei sample_world) 9 100))
    = Ok w'.
Proof.
  split.
  - destruct (X8_transferTo_never_panics sample_env 1 2 50
                (run sample_env [Tx_receiveFunds 1 5] (deployed (wei sample_world) 9 100))
                no_code_passive (sample_reachable _)) as [[_ H]|[Hge _]];
      [exact H|].
    exfalso. apply N.leb_le in Hge. vm_compute in Hge. discriminate.
  - destruct (X8_transferTo_never_panics sample_env 1 2 3
                (run sample_env [Tx_receiveFunds 1 5] (deployed (wei sample_world) 9 100))
                no_code_passive (sample_reachable _)) as [[Hlt _]|[_ [H|H]]].
    + exfalso. vm_compute in Hlt. discriminate.
    + exfalso. vm_compute in H. discriminate.
    + exact H.
Defined.

Lemma X9_witness :
  totalReceived (rc sample_world)
  <= totalReceived
       (rc (run sample_env [Tx_receiveFunds 1 5; Tx_withdraw 9 100] sample_world)).
Proof.
  apply (X9_totalReceived_never_decreases sample_env
           [Tx_receiveFunds 1 5; Tx_withdraw 9 100] sample_world).
  apply no_code_passive.
Defined.

(** A forwarded deposit of 50 adds one to the counter of [relay_world]. *)
Lemma X10_witness :
  receiverContract (cc (step sample_env relay_world (Tx_callReceiverContract 1 50))) = 100 /\
  exists w',
    exec sample_env (Tx_callReceiverContract 1 50) relay_world = Ok w' /\
    totalTransfers (cc w') = 2.
Proof.
  destruct (X10_ContractCaller_storage_changes sample_env (Tx_callReceiverContract 1 50)
              relay_world no_code_passive) as (Htarget & Hcount & _).
  split; [exact Htarget|].
  destruct (exec sample_env (Tx_callReceiverContract 1 50) relay_world) as [w'|] eqn:Hok;
    [|vm_compute in Hok; discriminate].
  exists w'. split; [reflexivity|]. rewrite (Hcount w' eq_refl). reflexivity.
Defined.

(** Account 2 cannot lower the balance of account 1. *)
Lemma X11_witness :
  getUserBalance sample_world 1
  <= getUserBalance (step sample_env sample_world (Tx_transferTo 2 1 0)) 1.
Proof.
  apply (X11_only_the_holder_debits sample_env 1 (Tx_transferTo 2 1 0) sample_world).
  - apply no_code_passive.
  - holds.
  - left. holds.
Defined.

Lemma X12_witness :
  getBalance sample_env sample_world
  <= getBalance sample_env (step sample_env sample_world (Tx_transferTo 1 2 40)).
Proof.
  apply (X12_value_leaves_by_two_functions_only sample_env (Tx_transferTo 1 2 40)
           sample_world).
  - apply no_code_passive.
  - holds.
  - holds.
  - reflexivity.
Defined.

Lemma X13_witness :
  covered sample_env (step sample_env sample_world (Tx_callReceiverContract 1 50)).
Proof.
  apply (X13_coverage_broken_only_by_outflow sample_env (Tx_callReceiverContract 1 50)
           sample_world).
  - apply no_code_passive.
  - holds.
  - holds.
  - reflexivity.
  - unfold covered. holds.
Defined.

Lemma X14_witness :
  balance_of relay_world 200
  <= balance_of (step sample_env relay_world (Tx_callReceiverContract 1 50)) 200.
Proof.
  apply (X14_ContractCaller_value_is_locked sample_env (Tx_callReceiverContract 1 50)
           relay_world).
  - apply no_code_passive.
  - holds.
  - holds.
Defined.

Lemma X15_witness :
  exists l,
    events (run sample_env [Tx_receiveFunds 1 5; Tx_transferTo 1 2 3] sample_world)
    = events sample_world ++ l.
Proof.
  apply (X15_events_are_append_only sample_env
           [Tx_receiveFunds 1 5; Tx_transferTo 1 2 3] sample_world).
  apply no_code_passive.
Defined.

(** With [totalReceived] one below the largest [uint256], a deposit of 5
    is refused. *)
Lemma X16_witness :
  receiveFunds sample_env 1 5 brimful_world = Revert Panic_arithmetic /\
  receive sample_env 1 5 brimful_world = Revert Panic_arithmetic.
Proof.
  destruct (X16_deposit_overflow_reverts sample_env 1 5 brimful_world)
    as (H1 & H2 & _); [holds | holds | right; holds |].
  split; [exact H1|exact H2].
Defined.

Lemma X17_witness :
  exists w',
    callReceiverContract sample_env 1 50 sample_world = Ok w' /\
    getReceiverBalance sample_env (fun _ _ => Revert NoReason) w' = Ok 150.
Proof.
  destruct (callReceiverContract sample_env 1 50 sample_world) as [w'|] eqn:Hok;
    [|vm_compute in Hok; discriminate].
  destruct (X17_getReceiverBalance_follows_deposits sample_env
              (fun _ _ => Revert NoReason) 1 50 sample_world w') as [_ H];
    [holds | holds | holds | exact Hok |].
  exists w'. split; [reflexivity|]. rewrite H. reflexivity.
Defined.

(** A warning alone lets the deployment go on; an error stops it. *)
Lemma X18_witness :
  snd (handle_compiler_errors
         (Some [mkDiagnostic "Warning: unused variable" "warning"])) = None /\
  snd (handle_compiler_errors
         (Some [mkDiagnostic "Warning: unused variable" "warning";
                mkDiagnostic "ParserError: expected a semicolon" "error"]))
  = Some "Compilation failed due to errors above."%string.
Proof.
  split.
  - apply (proj2 (proj2 (X18_compiler_errors_stop_the_deployment
                           (Some [mkDiagnostic "Warning: unused variable" "warning"])))).
    intros d Hd. apply list_elem_of_singleton in Hd as ->. simpl. discriminate.
  - apply (proj1 (proj2 (X18_compiler_errors_stop_the_deployment
                           (Some [mkDiagnostic "Warning: unused variable" "warning";
                                  mkDiagnostic "ParserError: expected a semicolon" "error"])))).
    exists (mkDiagnostic "ParserError: expected a semicolon" "error").
    split; [|reflexivity]. simpl. apply list_elem_of_In. simpl. tauto.
Defined.
